(** * Butterworth ladder calculator: validator, rate limiter, element
      calculation, renderer and submit handler of [src/js/app.js], with the
      earlier variant of the component ([src/unnamed/part_000]).

    The JavaScript is embedded shallowly.  Strings are sequences of UTF-16
    code units, integer-valued numbers are [Z] (with [NaN] apart), the numbers
    handed to [Math.sin] and [toFixed] are binary64 floats, and the mutable
    page (request history, DOM, timers, console) is threaded explicitly. *)

From Stdlib Require Import ZArith NArith List String Ascii Bool Lia.
From Stdlib Require Import DecimalString.
From Stdlib Require Import Floats.PrimFloat Floats.FloatOps Floats.SpecFloat.
From Stdlib Require Floats.FloatAxioms.
From Stdlib Require DecimalPos Sorted.
Import ListNotations.

Local Open Scope Z_scope.

(* ===================================================================== *)
(** ** ECMAScript operations used by the program *)
(* ===================================================================== *)

Module JS.

(** A string value: a finite sequence of 16-bit code units. *)
Definition code_unit := N.
Definition jsstring := list code_unit.

(** The string written by an ASCII literal of the source. *)
Definition lit (s : string) : jsstring :=
  map N_of_ascii (list_ascii_of_string s).

Definition cu (a : ascii) : code_unit := N_of_ascii a.

Definition jsstring_eqb (a b : jsstring) : bool :=
  if list_eq_dec N.eq_dec a b then true else false.

(** [WhiteSpace] and [LineTerminator] code points (ECMA-262, 12.2 and
    12.3): TAB, LF, VT, FF, CR, SP, NBSP, the other space separators,
    LS, PS and ZWNBSP. *)
Definition isStrWhiteSpaceChar (c : code_unit) : bool :=
  (existsb (N.eqb c)
     [9; 10; 11; 12; 13; 32; 160; 5760; 8232; 8233; 8239; 8287; 12288; 65279]
   || ((8192 <=? c) && (c <=? 8202)))%N.

Fixpoint trimStart (s : jsstring) : jsstring :=
  match s with
  | c :: r => if isStrWhiteSpaceChar c then trimStart r else s
  | [] => []
  end.

Definition trimEnd (s : jsstring) : jsstring := rev (trimStart (rev s)).

(** [String.prototype.trim]. *)
Definition trim (s : jsstring) : jsstring := trimEnd (trimStart s).

Definition isDecimalDigit (c : code_unit) : bool := ((48 <=? c) && (c <=? 57))%N.
Definition isBinaryDigit (c : code_unit) : bool := ((48 <=? c) && (c <=? 49))%N.
Definition isOctalDigit (c : code_unit) : bool := ((48 <=? c) && (c <=? 55))%N.
Definition isHexDigit (c : code_unit) : bool :=
  (isDecimalDigit c || ((65 <=? c) && (c <=? 70)) || ((97 <=? c) && (c <=? 102)))%N.

(** The longest prefix of decimal digits, and what follows it. *)
Fixpoint spanDigits (s : jsstring) : jsstring * jsstring :=
  match s with
  | c :: r =>
      if isDecimalDigit c
      then let (d, t) := spanDigits r in (c :: d, t)
      else ([], s)
  | [] => ([], [])
  end.

Definition nonEmpty (s : jsstring) : bool :=
  match s with [] => false | _ :: _ => true end.

Definition isDecimalDigits (s : jsstring) : bool :=
  nonEmpty s && forallb isDecimalDigit s.

(** [SignedInteger ::: DecimalDigits | + DecimalDigits | - DecimalDigits] *)
Definition isSignedInteger (s : jsstring) : bool :=
  match s with
  | c :: r =>
      if (N.eqb c (cu "+") || N.eqb c (cu "-"))%bool
      then isDecimalDigits r else isDecimalDigits s
  | [] => false
  end.

(** [ExponentPart_opt]: nothing, or [e]/[E] and a signed integer. *)
Definition isExponentPartOpt (s : jsstring) : bool :=
  match s with
  | [] => true
  | c :: r => (N.eqb c (cu "e") || N.eqb c (cu "E")) && isSignedInteger r
  end.

(** [StrUnsignedDecimalLiteral ::: Infinity
      | DecimalDigits . DecimalDigits_opt ExponentPart_opt
      | . DecimalDigits ExponentPart_opt
      | DecimalDigits ExponentPart_opt] *)
Definition isStrUnsignedDecimalLiteral (s : jsstring) : bool :=
  if jsstring_eqb s (lit "Infinity") then true
  else
    let (int, r1) := spanDigits s in
    match r1 with
    | c :: r2 =>
        if N.eqb c (cu ".")
        then let (frac, r3) := spanDigits r2 in
             (nonEmpty int || nonEmpty frac) && isExponentPartOpt r3
        else nonEmpty int && isExponentPartOpt r1
    | [] => nonEmpty int
    end.

Definition isStrDecimalLiteral (s : jsstring) : bool :=
  match s with
  | c :: r =>
      if (N.eqb c (cu "+") || N.eqb c (cu "-"))%bool
      then isStrUnsignedDecimalLiteral r
      else isStrUnsignedDecimalLiteral s
  | [] => false
  end.

(** [NonDecimalIntegerLiteral]: [0b], [0o] or [0x] (either case) and at
    least one digit of that base. *)
Definition isNonDecimalIntegerLiteral (s : jsstring) : bool :=
  match s with
  | z :: p :: ds =>
      N.eqb z (cu "0") && nonEmpty ds &&
      (((N.eqb p (cu "b") || N.eqb p (cu "B")) && forallb isBinaryDigit ds)
       || ((N.eqb p (cu "o") || N.eqb p (cu "O")) && forallb isOctalDigit ds)
       || ((N.eqb p (cu "x") || N.eqb p (cu "X")) && forallb isHexDigit ds))
  | _ => false
  end.

(** [StringNumericLiteral ::: StrWhiteSpace_opt
      | StrWhiteSpace_opt StrNumericLiteral StrWhiteSpace_opt] *)
Definition isStringNumericLiteral (s : jsstring) : bool :=
  let t := trim s in
  match t with
  | [] => true
  | _ => isStrDecimalLiteral t || isNonDecimalIntegerLiteral t
  end.

(** The global [isNaN] applied to a string: [ToNumber] of a string is
    [NaN] exactly when the string is not a [StringNumericLiteral]. *)
Definition isNaN (value : jsstring) : bool := negb (isStringNumericLiteral value).

(** An integer-valued Number, or NaN: what [parseInt] returns.  (The
    rounding of integers beyond 2^53 to binary64 is not modelled; the
    program only compares the result with 1 and 20.) *)
Inductive number : Type :=
| NaN : number
| Num : Z -> number.

Definition digitValue (c : code_unit) : Z := Z.of_N c - 48.

Definition digitsValue (ds : jsstring) : Z :=
  fold_left (fun acc c => 10 * acc + digitValue c) ds 0.

(** [parseInt(string, 10)]: leading white space is dropped, one sign is
    read, then the longest run of decimal digits; NaN when that run is
    empty. *)
Definition parseInt10 (value : jsstring) : number :=
  let S := trimStart value in
  let (sign, S1) :=
    match S with
    | c :: r =>
        if N.eqb c (cu "-") then (-1, r)
        else if N.eqb c (cu "+") then (1, r)
        else (1, S)
    | [] => (1, S)
    end in
  let (ds, _) := spanDigits S1 in
  match ds with
  | [] => NaN
  | _ => Num (sign * digitsValue ds)
  end.

(** [x < y] and [x > y] on these Numbers: false whenever an operand is
    NaN. *)
Definition lessThan (x y : number) : bool :=
  match x, y with Num a, Num b => a <? b | _, _ => false end.
Definition greaterThan (x y : number) : bool := lessThan y x.

(** [String.prototype.includes] with a one-unit search string. *)
Definition includes (s : jsstring) (c : code_unit) : bool := existsb (N.eqb c) s.

(** [Number::toString] of an integer below 10^21 in magnitude. *)
Definition ZToString (z : Z) : jsstring := lit (NilZero.string_of_int (Z.to_int z)).

(* ------------------------------------------------------------------- *)
(** *** Numbers: binary64 *)

(** The Number nearest to an integer (ties to even). *)
Definition ZToNumber (z : Z) : float :=
  SF2Prim (binary_normalize prec emax z 0 false).

(** [Math.PI], the binary64 nearest to pi: 3.141592653589793. *)
Definition Math_PI : float := 0x1.921fb54442d18p+1%float.

(** What the language leaves to the implementation: [Math.sin] returns an
    implementation-approximated value (ECMA-262, 21.3.2). *)
Record engine : Type := {
  Math_sin : float -> float
}.

(** [w] decimal digits of [z], the least significant last. *)
Fixpoint pad (w : nat) (z : Z) : jsstring :=
  match w with
  | O => []
  | S w' => pad w' (z / 10) ++ [Z.to_N (48 + z mod 10)]
  end.

(** A finite number [m * 2^e] as a fraction of integers. *)
Definition fraction (m : positive) (e : Z) : Z * Z :=
  if 0 <=? e then (Z.pos m * 2 ^ e, 1) else (Z.pos m, 2 ^ (- e)).

(** The integer [n] for which [n / 10^f - x] is as close to zero as
    possible, the larger one if there are two ([x = num / den >= 0]). *)
Definition nearestScaled (num den : Z) (f : nat) : Z :=
  (2 * num * 10 ^ Z.of_nat f + den) / (2 * den).

(** Steps 10.b to 10.d of [Number.prototype.toFixed]: the digits of [n]
    with a point before the last [f] of them. *)
Definition fixedDigits (n : Z) (f : nat) : jsstring :=
  let m := ZToString n in
  match f with
  | O => m
  | _ =>
      let k := List.length m in
      let m' := if (k <=? f)%nat then repeat (cu "0") (f + 1 - k) ++ m else m in
      let k' := List.length m' in
      firstn (k' - f) m' ++ lit "." ++ skipn (k' - f) m'
  end.

(** Whether the integer [v] rounds to the binary64 number [m * 2^e]
    (ties to even), for a normal number with [e >= 2]: [v] lies within half
    the distance to the next number on either side, the bounds included
    when [m] is even. *)
Definition roundsTo (m : positive) (e : Z) (v : Z) : bool :=
  let x := Z.pos m * 2 ^ e in
  let above := 2 ^ (e - 1) in
  let below := if Z.pos m =? 2 ^ 52 then 2 ^ (e - 2) else 2 ^ (e - 1) in
  if Z.even (Z.pos m)
  then (x - below <=? v) && (v <=? x + above)
  else (x - below <? v) && (v <? x + above).

(** The shortest [s] of [k], [k + 1], ... digits with [s * 10^(d - k)]
    rounding to [m * 2^e], which has [d] digits; of two such [s] the one
    nearer to the number, the even one in a tie. *)
Fixpoint shortestDigits (fuel : nat) (m : positive) (e d k : Z) : Z :=
  let x := Z.pos m * 2 ^ e in
  let p := 10 ^ (d - k) in
  let lo := x / p in
  let hi := lo + 1 in
  let okLo := roundsTo m e (lo * p) in
  let okHi := roundsTo m e (hi * p) && (hi <? 10 ^ k) in
  match fuel with
  | O => lo
  | S fuel' =>
      if okLo && okHi then
        if x - lo * p <? hi * p - x then lo
        else if hi * p - x <? x - lo * p then hi
        else if Z.even lo then lo else hi
      else if okLo then lo
      else if okHi then hi
      else shortestDigits fuel' m e d (k + 1)
  end.

(** [Number::toString] of the finite number [m * 2^e >= 10^21]: integers
    [n], [k], [s] with [s] of [k] digits, [s * 10^(n-k)] rounding to the
    number and [k] as small as possible, written [d.ddde+N] with
    [N = n - 1].  Where the standard leaves the last digit open, the
    decimal nearest to the number is taken, as it recommends. *)
Definition NumberToStringLarge (m : positive) (e : Z) : jsstring :=
  let d := Z.of_nat (List.length (ZToString (Z.pos m * 2 ^ e))) in
  let (s, n) :=
    if roundsTo m e (10 ^ d) then (1, d + 1)
    else (shortestDigits 17 m e d 1, d) in
  match ZToString s with
  | [] => []
  | first :: [] => [first] ++ lit "e+" ++ ZToString (n - 1)
  | first :: more => [first] ++ lit "." ++ more ++ lit "e+" ++ ZToString (n - 1)
  end.

(** [Number.prototype.toFixed(f)] for [0 <= f <= 100]. *)
Definition toFixed (x : float) (f : nat) : jsstring :=
  match Prim2SF x with
  | S754_nan => lit "NaN"
  | S754_infinity s => if s then lit "-Infinity" else lit "Infinity"
  | S754_zero _ => fixedDigits 0 f
  | S754_finite s m e =>
      let sign := if s then lit "-" else [] in
      let (num, den) := fraction m e in
      if 10 ^ 21 * den <=? num
      then sign ++ NumberToStringLarge m e
      else sign ++ fixedDigits (nearestScaled num den f) f
  end.

(** [parseFloat] applied to a Number: the number is first turned into
    a string and read back, which returns it unchanged except that
    [-0] is printed as [0] and comes back as [+0]. *)
Definition parseFloat (x : float) : float :=
  if PrimFloat.eqb x 0%float then 0%float else x.

(** [Number * Number], [Number / Number] are the binary64 operations. *)
Definition times (x y : float) : float := PrimFloat.mul x y.
Definition over (x y : float) : float := PrimFloat.div x y.

(* ------------------------------------------------------------------- *)
(** *** Dates *)

(** Year, month and day of the day number [days] (days since 1 January
    1970) in the proleptic Gregorian calendar. *)
Definition civil (days : Z) : Z * Z * Z :=
  let z := days + 719468 in
  let era := z / 146097 in
  let doe := z - era * 146097 in
  let yoe := (doe - doe / 1460 + doe / 36524 - doe / 146096) / 365 in
  let doy := doe - (365 * yoe + yoe / 4 - yoe / 100) in
  let mp := (5 * doy + 2) / 153 in
  let d := doy - (153 * mp + 2) / 5 + 1 in
  let m := if mp <? 10 then mp + 3 else mp - 9 in
  let y := yoe + era * 400 + (if m <=? 2 then 1 else 0) in
  (y, m, d).

(** [Date.prototype.toISOString] of the time value [tv] (milliseconds
    since the epoch, UTC): [YYYY-MM-DDTHH:mm:ss.sssZ], the year with a
    sign and six digits outside 0..9999. *)
Definition toISOString (tv : Z) : jsstring :=
  let '(y, m, d) := civil (tv / 86400000) in
  let ms := tv mod 86400000 in
  let year :=
    if (0 <=? y) && (y <=? 9999) then pad 4 y
    else (if y <? 0 then lit "-" else lit "+") ++ pad 6 (Z.abs y) in
  year ++ lit "-" ++ pad 2 m ++ lit "-" ++ pad 2 d ++ lit "T"
    ++ pad 2 (ms / 3600000) ++ lit ":" ++ pad 2 (ms / 60000 mod 60)
    ++ lit ":" ++ pad 2 (ms / 1000 mod 60) ++ lit "." ++ pad 3 (ms mod 1000)
    ++ lit "Z".

(* ------------------------------------------------------------------- *)
(** *** Values passed to [console.log] *)

#[warnings="-register-all"]
Inductive jsvalue : Type :=
| VUndefined : jsvalue
| VString : jsstring -> jsvalue
| VNumber : number -> jsvalue
| VObject : list (string * jsvalue) -> jsvalue.

(** Property access [o.key]; [None] is [undefined]. *)
Fixpoint getProp (props : list (string * jsvalue)) (key : string) : option jsvalue :=
  match props with
  | [] => None
  | (k, v) :: r => if String.eqb k key then Some v else getProp r key
  end.

End JS.

Import JS.

(* ===================================================================== *)
(** ** src/js/app.js *)
(* ===================================================================== *)

Definition MAX_REQUESTS : Z := 10.
Definition TIME_WINDOW : Z := 60000.
Definition MAX_INPUT : Z := 20.
Definition MIN_INPUT : Z := 1.

(** The symbols of the messages and icons: warning sign U+26A0 U+FE0F,
    check mark U+2713, high voltage U+26A1, electric plug U+1F50C (a
    surrogate pair). *)
Definition warning_sign : jsstring := [9888; 65039]%N.
Definition check_mark : jsstring := [10003]%N.
Definition high_voltage : jsstring := [9889]%N.
Definition electric_plug : jsstring := [55357; 56588]%N.

(** *** The objects the functions return *)

(** [validateInput]: [{ valid, message, value }], [value] absent ([None])
    from the three rejecting objects. *)
Module Validation.
Record result : Type := {
  valid : bool;
  message : jsstring;
  value : option number
}.
End Validation.

(** [checkRateLimit]: [{ allowed, message }], [message] absent when
    allowed. *)
Module RateLimit.
Record result : Type := {
  allowed : bool;
  message : option jsstring
}.
End RateLimit.

(** [calculateElements]: [{ type, index, value }]. *)
Module Element.
Record t : Type := {
  type : jsstring;
  index : Z;
  value : jsstring
}.
End Element.

(** *** The page: what the script reads and writes *)

(** A [span] with its class name and text content, and a result [div]
    with its class list and child spans. *)
Record span : Type := {
  span_className : jsstring;
  span_textContent : jsstring
}.

Record div : Type := {
  classList : list jsstring;
  children : list span
}.

(** The message region [#inputValidation]. *)
Record validation_box : Type := {
  textContent : jsstring;
  className : jsstring;
  display : jsstring
}.

(** What a pending [setTimeout] callback does when it fires: add the class
    [show] to the div it captured, or hide the message region. *)
Inductive timer_action : Type :=
| AddShow : nat -> timer_action
| HideValidation : timer_action.

(** The functions the submit handler enters, in a log kept beside the
    program state (it is written, never read, by the model). *)
Inductive call : Type :=
| CallCheckRateLimit
| CallValidateInput
| CallCalculateElements (k : Z)
| CallRenderResults
| CallShowValidationMessage
| CallConsoleLog.

Record page : Type := {
  requestHistory : list Z;           (* let requestHistory *)
  nodes : list div;                  (* every div created so far; a div is
                                        named by its position here *)
  resultField : list nat;            (* the children of #resultField *)
  inputValidation : validation_box;  (* #inputValidation *)
  timers : list (Z * timer_action);  (* setTimeout: delay and callback *)
  console : list (list jsvalue);     (* console.log: one argument list per call *)
  calls : list call
}.

Definition set_requestHistory (h : list Z) (s : page) : page :=
  {| requestHistory := h; nodes := nodes s; resultField := resultField s;
     inputValidation := inputValidation s; timers := timers s;
     console := console s; calls := calls s |}.

Definition set_resultField (r : list nat) (s : page) : page :=
  {| requestHistory := requestHistory s; nodes := nodes s; resultField := r;
     inputValidation := inputValidation s; timers := timers s;
     console := console s; calls := calls s |}.

Definition set_nodes (n : list div) (s : page) : page :=
  {| requestHistory := requestHistory s; nodes := n; resultField := resultField s;
     inputValidation := inputValidation s; timers := timers s;
     console := console s; calls := calls s |}.

Definition set_inputValidation (b : validation_box) (s : page) : page :=
  {| requestHistory := requestHistory s; nodes := nodes s; resultField := resultField s;
     inputValidation := b; timers := timers s;
     console := console s; calls := calls s |}.

Definition setTimeout (a : timer_action) (delay : Z) (s : page) : page :=
  {| requestHistory := requestHistory s; nodes := nodes s; resultField := resultField s;
     inputValidation := inputValidation s; timers := timers s ++ [(delay, a)];
     console := console s; calls := calls s |}.

Definition console_log (args : list jsvalue) (s : page) : page :=
  {| requestHistory := requestHistory s; nodes := nodes s; resultField := resultField s;
     inputValidation := inputValidation s; timers := timers s;
     console := console s ++ [args]; calls := calls s |}.

Definition enter (c : call) (s : page) : page :=
  {| requestHistory := requestHistory s; nodes := nodes s; resultField := resultField s;
     inputValidation := inputValidation s; timers := timers s;
     console := console s; calls := calls s ++ [c] |}.

(** *** sanitizeHTML *)

(** [div.textContent = str; return div.innerHTML]: the text is serialised
    with [&], [<], [>] and the no-break space replaced by their entities. *)
Fixpoint sanitizeHTML (str : jsstring) : jsstring :=
  match str with
  | [] => []
  | c :: r =>
      (if N.eqb c (cu "&") then lit "&amp;"
       else if N.eqb c (cu "<") then lit "&lt;"
       else if N.eqb c (cu ">") then lit "&gt;"
       else if N.eqb c 160 then lit "&nbsp;"
       else [c]) ++ sanitizeHTML r
  end.

(** *** validateInput *)

Definition msg_not_a_number : jsstring :=
  warning_sign ++ lit " Invalid input: Must be a number".
Definition msg_out_of_range : jsstring :=
  warning_sign ++ lit " Input out of range: " ++ ZToString MIN_INPUT
    ++ lit "-" ++ ZToString MAX_INPUT ++ lit " allowed".
Definition msg_integer_required : jsstring :=
  warning_sign ++ lit " Invalid input: Integer required".
Definition msg_validated : jsstring := check_mark ++ lit " Input validated".

Definition validateInput (value : jsstring) : Validation.result :=
  (* isNaN(value) || value === '' || value === null; a string is never null *)
  if isNaN value || negb (nonEmpty value) then
    {| Validation.valid := false; Validation.message := msg_not_a_number;
       Validation.value := None |}
  else
    let num := parseInt10 value in
    if lessThan num (Num MIN_INPUT) || greaterThan num (Num MAX_INPUT) then
      {| Validation.valid := false; Validation.message := msg_out_of_range;
         Validation.value := None |}
    else if includes value (cu ".") || includes value (cu ",") then
      {| Validation.valid := false; Validation.message := msg_integer_required;
         Validation.value := None |}
    else
      {| Validation.valid := true; Validation.message := msg_validated;
         Validation.value := Some num |}.

(** *** checkRateLimit *)

Definition msg_rate_limit : jsstring :=
  warning_sign ++ lit " Rate limit exceeded: Max " ++ ZToString MAX_REQUESTS
    ++ lit " requests per minute".

(** [requestHistory.filter(timestamp => now - timestamp < TIME_WINDOW)] *)
Definition prune (now : Z) (history : list Z) : list Z :=
  filter (fun timestamp => now - timestamp <? TIME_WINDOW) history.

(** [now] is the reading of [Date.now()]. *)
Definition checkRateLimit (now : Z) (s : page) : RateLimit.result * page :=
  let s1 := set_requestHistory (prune now (requestHistory s)) s in
  if Z.of_nat (List.length (requestHistory s1)) >=? MAX_REQUESTS then
    ({| RateLimit.allowed := false; RateLimit.message := Some msg_rate_limit |}, s1)
  else
    ({| RateLimit.allowed := true; RateLimit.message := None |},
     set_requestHistory (requestHistory s1 ++ [now]) s1).

(** *** calculateElements *)

Section Calculator.

Variable E : engine.

(** [2 * Math.sin(((2 * k - 1) * Math.PI) / (2 * n))]; [2 * k - 1] and
    [2 * n] are integers, exact below 2^53. *)
Definition ak (k n : Z) : float :=
  times 2 (Math_sin E (over (times (ZToNumber (2 * k - 1)) Math_PI)
                            (ZToNumber (2 * n)))).

Definition calculateElements (k n : Z) : Element.t :=
  let elemento := if Z.rem k 2 =? 0 then lit "capacitor" else lit "inductor" in
  let result := parseFloat (ak k n) in
  {| Element.type := elemento;
     Element.index := k;
     Element.value := toFixed result 4 |}.

(** [for (let k = ...; k <= n; k++) elements.push(calculateElements(k, n))]
    from the value [k]; each iteration is entered in the call log.  The
    loop leaves by its test; [fuel] bounds the iterations unfolded.
    The counter is an integer Number: [k++] is exact below 2^53 and the
    array holds fewer than 2^32 elements, which is the range in which this
    loop on [Z] and lists is the loop of the code. *)
Fixpoint for_k (fuel : nat) (k n : Z) (acc : list Element.t * page)
  : list Element.t * page :=
  match fuel with
  | O => acc
  | S fuel' =>
      if k <=? n then
        for_k fuel' (k + 1) n
          (fst acc ++ [calculateElements k n],
           enter (CallCalculateElements k) (snd acc))
      else acc
  end.

End Calculator.

(** *** renderResults *)

(** The div built for one element.  The index is written in decimal, as
    the template literal writes an integer below 10^21 in magnitude. *)
Definition result_div (element : Element.t) : div :=
  {| classList := [lit "result-item"];
     children :=
       [ {| span_className := lit "result-icon";
            span_textContent :=
              if jsstring_eqb (Element.type element) (lit "capacitor")
              then high_voltage else electric_plug |};
         {| span_className := lit "result-text";
            span_textContent :=
              lit "El " ++ sanitizeHTML (Element.type element) ++ lit " "
                ++ ZToString (Element.index element) ++ lit " vale "
                ++ Element.value element |} ] |}.

(** The body of the [forEach] callback: the div is created, filled,
    appended to [#resultField], and its reveal is scheduled. *)
Definition render_element (element : Element.t) (index : Z) (s : page) : page :=
  let resultDiv := List.length (nodes s) in
  let s1 := set_nodes (nodes s ++ [result_div element]) s in
  let s2 := set_resultField (resultField s1 ++ [resultDiv]) s1 in
  setTimeout (AddShow resultDiv) (index * 50) s2.

Fixpoint forEach (elements : list Element.t) (index : Z) (s : page) : page :=
  match elements with
  | [] => s
  | element :: rest => forEach rest (index + 1) (render_element element index s)
  end.

Definition renderResults (elements : list Element.t) (s : page) : page :=
  (* resultField.textContent = '' removes every child *)
  forEach elements 0 (set_resultField [] s).

(** The divs now under [#resultField], in document order. *)
Definition shown (s : page) : list div :=
  flat_map (fun id => match nth_error (nodes s) id with
                      | Some d => [d]
                      | None => []
                      end) (resultField s).

(** A timer fires. [classList.add('show')] on the captured div, whether
    or not it is still in the document. *)
Definition add_class (c : jsstring) (d : div) : div :=
  {| classList := if existsb (jsstring_eqb c) (classList d)
                  then classList d else classList d ++ [c];
     children := children d |}.

Fixpoint update_nth {A : Type} (i : nat) (f : A -> A) (l : list A) : list A :=
  match l, i with
  | [], _ => []
  | x :: r, O => f x :: r
  | x :: r, S i' => x :: update_nth i' f r
  end.

Definition fire (a : timer_action) (s : page) : page :=
  match a with
  | AddShow id => set_nodes (update_nth id (add_class (lit "show")) (nodes s)) s
  | HideValidation =>
      set_inputValidation
        {| textContent := textContent (inputValidation s);
           className := className (inputValidation s);
           display := lit "none" |} s
  end.

(** *** showValidationMessage *)

Definition showValidationMessage (message : jsstring) (isError : bool) (s : page) : page :=
  let s1 :=
    set_inputValidation
      {| textContent := message;
         className := lit "input-validation "
                        ++ (if isError then lit "error" else lit "success");
         display := lit "block" |} s in
  if negb isError then setTimeout HideValidation 2000 s1 else s1.

(** *** The input listener *)

(** [nelement.addEventListener('input', ...)]: [value] is [this.value]. *)
Definition input (value : jsstring) (s : page) : page :=
  let validation := validateInput value in
  if negb (Validation.valid validation) && nonEmpty value then
    showValidationMessage (Validation.message validation) true s
  else if Validation.valid validation then
    showValidationMessage (Validation.message validation) false s
  else
    set_inputValidation
      {| textContent := textContent (inputValidation s);
         className := className (inputValidation s);
         display := lit "none" |} s.

(** *** The submit handler *)

Section Submit.

Variable E : engine.

(** The object written to the console after a calculation. *)
Definition audit_record (date : Z) (n : option number) (elements : list Element.t)
           (s : page) : jsvalue :=
  VObject
    [ ("timestamp"%string, VString (toISOString date));
      ("action"%string, VString (lit "CALCULATION_PERFORMED"));
      ("input"%string, match n with Some x => VNumber x | None => VUndefined end);
      ("elements"%string, VNumber (Num (Z.of_nat (List.length elements))));
      ("requestCount"%string,
       VNumber (Num (Z.of_nat (List.length (requestHistory s))))) ].

(** The loop of the handler over [n = validation.value].  [k <= n] is
    false when [n] is NaN or undefined, and no iteration runs. *)
Definition element_loop (n : option number) (s : page) : list Element.t * page :=
  match n with
  | Some (Num z) => for_k E (Z.to_nat z) 1 z ([], s)
  | Some NaN | None => ([], s)
  end.

(** [form.addEventListener('submit', ...)]: [value] is [nelement.value]
    when the form is submitted, [now] the reading of [Date.now()] in
    [checkRateLimit] and [date] that of [new Date()] for the audit line.
    ([event.preventDefault()] touches nothing modelled here.) *)
Definition submit (now date : Z) (value : jsstring) (s : page) : page :=
  let (rateLimitCheck, s1) := checkRateLimit now (enter CallCheckRateLimit s) in
  if negb (RateLimit.allowed rateLimitCheck) then
    showValidationMessage
      (match RateLimit.message rateLimitCheck with
       | Some m => m
       | None => lit "undefined"
       end)
      true (enter CallShowValidationMessage s1)
  else
    let validation := validateInput value in
    let s2 := enter CallValidateInput s1 in
    if negb (Validation.valid validation) then
      showValidationMessage (Validation.message validation) true
        (enter CallShowValidationMessage s2)
    else
      let n := Validation.value validation in
      let (elements, s3) := element_loop n s2 in
      let s4 := renderResults elements (enter CallRenderResults s3) in
      console_log [VString (lit "[SECURITY AUDIT]");
                   audit_record date n elements s4]
        (enter CallConsoleLog s4).

End Submit.

(** *** The DOMContentLoaded listener *)

(** [document.addEventListener('DOMContentLoaded', ...)]: six lines on the
    console.  [TIME_WINDOW/1000] is the integer 60. *)
Definition loaded (s : page) : page :=
  console_log
    [VString (lit "  " ++ check_mark ++ lit " Max " ++ ZToString MAX_REQUESTS
                ++ lit " requests per " ++ ZToString (TIME_WINDOW / 1000) ++ lit "s")]
    (console_log [VString (lit "  " ++ check_mark ++ lit " CSP Headers Applied")]
       (console_log [VString (lit "  " ++ check_mark ++ lit " Rate Limiting Active")]
          (console_log [VString (lit "  " ++ check_mark ++ lit " Input Validation Enabled")]
             (console_log [VString (lit "  " ++ check_mark ++ lit " XSS Protection Active")]
                (console_log [VString (lit "[SECURITY] Application initialized with:")]
                   s))))).

(* ===================================================================== *)
(** ** src/unnamed/part_000: the earlier variant *)
(* ===================================================================== *)

Module Legacy.
Section Variant.

Variable E : engine.

Definition elemento (k : Z) : jsstring :=
  if Z.rem k 2 =? 0 then lit "capacitor" else lit "inductor".

Definition result (k n : Z) : float :=
  parseFloat (times 2 (Math_sin E (over (times (ZToNumber (2 * k - 1)) Math_PI)
                                        (ZToNumber (2 * n))))).

(** [elements(k, n)]: the markup of one line. *)
Definition elements (k n : Z) : jsstring :=
  lit "El " ++ elemento k ++ lit " " ++ ZToString k ++ lit " vale "
    ++ toFixed (result k n) 3 ++ lit "<br>".

(** [resultField.innerHTML = ""] and the loop
    [resultField.innerHTML += elements(k, n)]: the pieces of markup in
    the order they are appended.  [n] is the number the text of the field
    converts to in [k <= n] and [2 * n], here an integer; as above, the
    counter is exact below 2^53. *)
Fixpoint for_k (fuel : nat) (k n : Z) (innerHTML : list jsstring) : list jsstring :=
  match fuel with
  | O => innerHTML
  | S fuel' =>
      if k <=? n then for_k fuel' (k + 1) n (innerHTML ++ [elements k n])
      else innerHTML
  end.

Definition submit (n : Z) : list jsstring := for_k (Z.to_nat n) 1 n [].

End Variant.
End Legacy.


(* ===================================================================== *)
(** ** A reference engine, for evaluating the program on concrete inputs *)
(* ===================================================================== *)

Module Reference.

(** The sine on [0, pi] by its Taylor polynomial of degree 25 around 0,
    after reflecting the upper half of the interval onto the lower one:
    accurate to a few units in the last place there, which is the range
    of the arguments [(2k-1) pi / (2n)] with [1 <= k <= n]. *)
Definition sin_series (x : float) : float :=
  let y := if PrimFloat.ltb (over Math_PI 2) x then PrimFloat.sub Math_PI x else x in
  let y2 := PrimFloat.mul y y in
  PrimFloat.mul y
    (fold_right
       (fun d acc => PrimFloat.sub 1 (PrimFloat.mul (PrimFloat.div y2 d) acc))
       1%float
       [6; 20; 42; 72; 110; 156; 210; 272; 342; 420; 506; 600]%float).

Definition engine : JS.engine := {| Math_sin := sin_series |}.

(** A page just loaded: nothing requested, rendered, scheduled or logged. *)
Definition fresh : page :=
  {| requestHistory := []; nodes := []; resultField := [];
     inputValidation := {| textContent := []; className := []; display := [] |};
     timers := []; console := []; calls := [] |}.

End Reference.

(* ===================================================================== *)
(** ** Vocabulary of the statements *)
(* ===================================================================== *)

(** [len] consecutive integers from [start]. *)
Fixpoint Zseq (start : Z) (len : nat) : list Z :=
  match len with
  | O => []
  | S len' => start :: Zseq (start + 1) len'
  end.

(** Successive calls of [checkRateLimit], one per clock reading: what
    each returned for [allowed], and the page they leave. *)
Fixpoint checks (times : list Z) (s : page) : list bool * page :=
  match times with
  | [] => ([], s)
  | now :: later =>
      let (r, s1) := checkRateLimit now s in
      let (rs, s2) := checks later s1 in
      (RateLimit.allowed r :: rs, s2)
  end.

(** The clock readings of the calls, among those of [checks], that
    [checkRateLimit] allowed. *)
Fixpoint granted (times : list Z) (s : page) : list Z :=
  match times with
  | [] => []
  | now :: later =>
      let (r, s1) := checkRateLimit now s in
      (if RateLimit.allowed r then [now] else []) ++ granted later s1
  end.

(** The timers fire one after the other. *)
Definition fire_all (actions : list timer_action) (s : page) : page :=
  fold_left (fun s a => fire a s) actions s.

(** What can happen on the page: the document is loaded, the user types
    in the field, submits the form, or a timer fires. *)
Inductive event : Type :=
| Loaded : event
| Typed : jsstring -> event
| Submitted : Z -> Z -> jsstring -> event
| Fired : timer_action -> event.

Definition handle (E : engine) (ev : event) (s : page) : page :=
  match ev with
  | Loaded => loaded s
  | Typed value => input value s
  | Submitted now date value => submit E now date value s
  | Fired a => fire a s
  end.

Definition run (E : engine) (events : list event) (s : page) : page :=
  fold_left (fun s ev => handle E ev s) events s.

(** What follows the first point of a string. *)
Fixpoint afterPoint (t : jsstring) : jsstring :=
  match t with
  | [] => []
  | c :: r => if N.eqb c (cu ".") then r else afterPoint r
  end.

(** The text of a rendered div: the content of its second span. *)
Definition sentence (d : div) : jsstring :=
  match children d with
  | [_; text] => span_textContent text
  | _ => []
  end.

(** The two pages agree on everything but the call log. *)
Definition same_but_calls (s s' : page) : Prop :=
  requestHistory s' = requestHistory s /\ nodes s' = nodes s /\
  resultField s' = resultField s /\ inputValidation s' = inputValidation s /\
  timers s' = timers s /\ console s' = console s.

(** A date and time of ISO 8601 in the extended format with milliseconds
    and the UTC designator, the year of four digits or signed of six. *)
Definition isISO8601 (t : jsstring) : Prop :=
  exists year month day hours minutes seconds millis : jsstring,
    t = year ++ lit "-" ++ month ++ lit "-" ++ day ++ lit "T" ++ hours
          ++ lit ":" ++ minutes ++ lit ":" ++ seconds ++ lit "." ++ millis
          ++ lit "Z"
    /\ ((List.length year = 4%nat /\ forallb isDecimalDigit year = true)
        \/ exists sign digits,
             year = sign :: digits /\ (sign = cu "+" \/ sign = cu "-")
             /\ List.length digits = 6%nat /\ forallb isDecimalDigit digits = true)
    /\ Forall (fun f => List.length f = 2%nat /\ forallb isDecimalDigit f = true)
         [month; day; hours; minutes; seconds]
    /\ List.length millis = 3%nat /\ forallb isDecimalDigit millis = true.

(** A finite number of magnitude below 10^21, the range in which
    [toFixed] writes plain decimal digits. *)
Definition below_1e21 (x : float) : Prop :=
  match Prim2SF x with
  | S754_zero _ => True
  | S754_finite _ m e => fst (fraction m e) < 10 ^ 21 * snd (fraction m e)
  | _ => False
  end.

(** An optional minus sign, one decimal digit or more, a point, and
    exactly [f] decimal digits. *)
Definition hasFractionDigits (f : nat) (t : jsstring) : Prop :=
  exists sign int frac : jsstring,
    t = sign ++ int ++ lit "." ++ frac
    /\ (sign = [] \/ sign = lit "-")
    /\ int <> [] /\ forallb isDecimalDigit int = true
    /\ List.length frac = f /\ forallb isDecimalDigit frac = true.

(* ===================================================================== *)
(** ** Printing numbers *)
(* ===================================================================== *)

Lemma string_of_uint_digits (d : Decimal.uint) :
  forallb isDecimalDigit (lit (NilEmpty.string_of_uint d)) = true.
Proof. induction d; simpl; auto. Qed.

(** The decimal of a natural number is a non-empty run of digits. *)
Lemma ZToString_digits (n : Z) :
  0 <= n -> ZToString n <> [] /\ forallb isDecimalDigit (ZToString n) = true.
Proof.
  intro Hn. unfold ZToString.
  destruct n as [|p|p]; [split; [discriminate | reflexivity] | | lia].
  cbn [Z.to_int NilZero.string_of_int].
  pose proof (string_of_uint_digits (Pos.to_uint p)) as Hd.
  unfold NilZero.string_of_uint.
  destruct (Pos.to_uint p) eqn:Hp;
    [ split; [discriminate | reflexivity] | split; [discriminate | exact Hd] .. ].
Qed.

Lemma fixedDigits_shape (n : Z) (f : nat) :
  0 <= n -> (0 < f)%nat ->
  exists int frac : jsstring,
    fixedDigits n f = int ++ lit "." ++ frac
    /\ int <> [] /\ forallb isDecimalDigit int = true
    /\ List.length frac = f /\ forallb isDecimalDigit frac = true.
Proof.
  intros Hn Hf. destruct (ZToString_digits n Hn) as [Hne Hdig].
  unfold fixedDigits. destruct f as [|f]; [lia|].
  set (m := ZToString n) in *.
  set (m' := if (List.length m <=? S f)%nat
             then repeat (cu "0") (S f + 1 - List.length m) ++ m else m).
  assert (Hlen : (S f < List.length m')%nat).
  { subst m'. destruct (List.length m <=? S f)%nat eqn:Hk.
    - apply Nat.leb_le in Hk. rewrite length_app, repeat_length.
      destruct m; [contradiction | simpl in *; lia].
    - apply Nat.leb_gt in Hk. exact Hk. }
  assert (Hdig' : forallb isDecimalDigit m' = true).
  { subst m'. destruct (List.length m <=? S f)%nat; [|exact Hdig].
    rewrite forallb_app, Hdig, Bool.andb_true_r.
    apply forallb_forall. intros c Hc. apply repeat_spec in Hc. now subst c. }
  rewrite <- (firstn_skipn (List.length m' - S f) m'), forallb_app in Hdig'.
  apply Bool.andb_true_iff in Hdig'. destruct Hdig' as [Hint Hfrac].
  exists (firstn (List.length m' - S f) m'), (skipn (List.length m' - S f) m').
  split; [reflexivity|]. split; [|split; [exact Hint | split; [|exact Hfrac]]].
  - intro H0. apply (f_equal (@List.length _)) in H0.
    rewrite length_firstn in H0. simpl in H0. lia.
  - rewrite length_skipn. lia.
Qed.

Lemma fraction_positive (m : positive) (e : Z) :
  0 <= fst (fraction m e) /\ 0 < snd (fraction m e).
Proof.
  unfold fraction. destruct (0 <=? e) eqn:He; cbn [fst snd].
  - apply Z.leb_le in He. split; [|lia].
    apply Z.mul_nonneg_nonneg; [lia | apply Z.pow_nonneg; lia].
  - apply Z.leb_gt in He. split; [lia | apply Z.pow_pos_nonneg; lia].
Qed.

(** [toFixed(f)] of a finite number below 10^21 in magnitude has exactly
    [f] digits after the point. *)
Lemma toFixed_fraction_digits (x : float) (f : nat) :
  (0 < f)%nat -> below_1e21 x -> hasFractionDigits f (toFixed x f).
Proof.
  intros Hf Hx. unfold below_1e21 in Hx. unfold toFixed, hasFractionDigits.
  destruct (Prim2SF x) as [sx | sx | | sx m e]; try contradiction.
  - destruct (fixedDigits_shape 0 f ltac:(lia) Hf) as (int & frac & -> & H).
    exists [], int, frac. split; [reflexivity | split; [now left | exact H]].
  - pose proof (fraction_positive m e) as [Hnum Hden].
    rewrite (surjective_pairing (fraction m e)).
    set (num := fst (fraction m e)) in *. set (den := snd (fraction m e)) in *.
    replace (10 ^ 21 * den <=? num) with false by (symmetry; apply Z.leb_gt; exact Hx).
    assert (Hn : 0 <= nearestScaled num den f).
    { unfold nearestScaled. apply Z.div_pos; [|lia].
      assert (0 <= 10 ^ Z.of_nat f) by (apply Z.pow_nonneg; lia). nia. }
    destruct (fixedDigits_shape (nearestScaled num den f) f Hn Hf)
      as (int & frac & -> & H).
    exists (if sx then lit "-" else []), int, frac.
    split; [reflexivity | split; [destruct sx; auto | exact H]].
Qed.

(* ===================================================================== *)
(** ** The element loop *)
(* ===================================================================== *)

Section ElementLoop.

Variable E : engine.

Lemma rem2_even (k : Z) : (Z.rem k 2 =? 0) = Z.even k.
Proof.
  destruct (Z.even k) eqn:Hk.
  - apply Z.eqb_eq. apply Z.even_spec in Hk. destruct Hk as [m ->].
    rewrite Z.mul_comm. apply Z.rem_mul. lia.
  - apply Z.eqb_neq. intro H.
    assert (Hd : (2 | k)) by (apply Z.rem_divide; [lia | exact H]).
    destruct Hd as [m ->].
    rewrite Z.even_mul in Hk. rewrite Bool.orb_comm in Hk. discriminate Hk.
Qed.

Lemma Zseq_length (start : Z) (len : nat) : List.length (Zseq start len) = len.
Proof. revert start. induction len as [|len IH]; intro start; simpl; [reflexivity | now rewrite IH]. Qed.

Lemma Zseq_nth (len : nat) : forall start i,
  (i < len)%nat -> nth_error (Zseq start len) i = Some (start + Z.of_nat i).
Proof.
  induction len as [|len IH]; intros start i Hi; [lia|].
  destruct i as [|i]; simpl.
  - f_equal. lia.
  - rewrite IH by lia. f_equal. lia.
Qed.

(** The loop leaves by its test once [n + 1 - k] iterations have run:
    with that much fuel or more it has pushed one element per index from
    [k] to [n], in order. *)
Lemma for_k_elements (fuel : nat) : forall k n acc s,
  (Z.to_nat (n + 1 - k) <= fuel)%nat ->
  fst (for_k E fuel k n (acc, s)) =
    acc ++ map (fun j => calculateElements E j n) (Zseq k (Z.to_nat (n + 1 - k))).
Proof.
  induction fuel as [|fuel IH]; intros k n acc s Hfuel.
  - replace (Z.to_nat (n + 1 - k)) with 0%nat by lia. simpl. now rewrite app_nil_r.
  - simpl. destruct (k <=? n) eqn:Hk.
    + apply Z.leb_le in Hk.
      rewrite IH by lia.
      replace (Z.to_nat (n + 1 - k)) with (S (Z.to_nat (n + 1 - (k + 1)))) by lia.
      simpl. now rewrite <- app_assoc.
    + apply Z.leb_gt in Hk.
      replace (Z.to_nat (n + 1 - k)) with 0%nat by lia. simpl. now rewrite app_nil_r.
Qed.

(** More fuel than the loop needs changes nothing. *)
Lemma for_k_fuel (fuel : nat) (k n : Z) (acc : list Element.t) (s : page) :
  (Z.to_nat (n + 1 - k) <= fuel)%nat ->
  fst (for_k E fuel k n (acc, s)) = fst (for_k E (Z.to_nat (n + 1 - k)) k n (acc, s)).
Proof.
  intro H. rewrite (for_k_elements fuel) by exact H.
  now rewrite (for_k_elements (Z.to_nat (n + 1 - k))) by lia.
Qed.

(** The loop writes nothing on the page but the call log. *)
Lemma for_k_page (fuel : nat) : forall k n acc s,
  same_but_calls s (snd (for_k E fuel k n (acc, s))).
Proof.
  induction fuel as [|fuel IH]; intros k n acc s.
  - simpl. repeat split.
  - simpl. destruct (k <=? n).
    + specialize (IH (k + 1) n (acc ++ [calculateElements E k n])
                     (enter (CallCalculateElements k) s)).
      exact IH.
    + repeat split.
Qed.

Lemma for_k_calls (fuel : nat) : forall k n acc s,
  (Z.to_nat (n + 1 - k) <= fuel)%nat ->
  calls (snd (for_k E fuel k n (acc, s))) =
    calls s ++ map CallCalculateElements (Zseq k (Z.to_nat (n + 1 - k))).
Proof.
  induction fuel as [|fuel IH]; intros k n acc s Hfuel.
  - replace (Z.to_nat (n + 1 - k)) with 0%nat by lia. simpl. now rewrite app_nil_r.
  - simpl. destruct (k <=? n) eqn:Hk.
    + apply Z.leb_le in Hk.
      rewrite IH by lia.
      replace (Z.to_nat (n + 1 - k)) with (S (Z.to_nat (n + 1 - (k + 1)))) by lia.
      simpl. now rewrite <- app_assoc.
    + apply Z.leb_gt in Hk.
      replace (Z.to_nat (n + 1 - k)) with 0%nat by lia. simpl. now rewrite app_nil_r.
Qed.

Lemma element_loop_elements (n : Z) (s : page) :
  fst (element_loop E (Some (Num n)) s) =
    map (fun k => calculateElements E k n) (Zseq 1 (Z.to_nat n)).
Proof.
  unfold element_loop. rewrite for_k_elements by lia.
  simpl. do 2 f_equal. lia.
Qed.

(** [toFixed] prints both zeros alike, so the detour of the value
    through [parseFloat] does not show in the string. *)
Lemma toFixed_parseFloat (x : float) (f : nat) :
  toFixed (parseFloat x) f = toFixed x f.
Proof.
  unfold parseFloat. destruct (PrimFloat.eqb x 0) eqn:Hx; [|reflexivity].
  rewrite FloatAxioms.eqb_spec in Hx.
  unfold toFixed.
  change (Prim2SF 0) with (S754_zero false) in *.
  destruct (Prim2SF x) as [sx| sx | | sx m e]; try reflexivity;
    unfold SFeqb, SFcompare in Hx; try destruct sx; discriminate Hx.
Qed.

End ElementLoop.

(** C1. For every integer n from 1 to 20 the loop of the submit handler
    produces exactly n elements; the element at position k (k = 1..n, in
    order) has index k, type capacitor when k is even and inductor when k
    is odd, and as value the number 2 * Math.sin((2k - 1) * Math.PI / (2n))
    printed by toFixed(4): with exactly 4 digits after the point, the
    number being finite and below 10^21 in magnitude. *)
Theorem C1_element_loop (E : engine) (n : Z) (s : page) :
  1 <= n <= 20 ->
  let elements := fst (element_loop E (Some (Num n)) s) in
  let number k :=
    PrimFloat.mul 2
      (Math_sin E
         (PrimFloat.div (PrimFloat.mul (ZToNumber (2 * k - 1)) Math_PI)
                        (ZToNumber (2 * n)))) in
  List.length elements = Z.to_nat n /\
  forall k, 1 <= k <= n ->
    nth_error elements (Z.to_nat (k - 1)) =
      Some {| Element.type := if Z.even k then lit "capacitor" else lit "inductor";
              Element.index := k;
              Element.value := toFixed (number k) 4 |}
    /\ (below_1e21 (number k) -> hasFractionDigits 4 (toFixed (number k) 4)).
Proof.
  intros Hn elements number. subst elements number.
  rewrite element_loop_elements. split.
  - now rewrite length_map, Zseq_length.
  - intros k Hk. split.
    + rewrite nth_error_map, Zseq_nth by lia.
      replace (1 + Z.of_nat (Z.to_nat (k - 1))) with k by lia.
      unfold option_map, calculateElements, ak, times, over.
      rewrite rem2_even, toFixed_parseFloat.
      reflexivity.
    + apply toFixed_fraction_digits. lia.
Qed.

(** The ladder of order 4 on the reference engine: four elements, inductor
    0.7654, capacitor 1.8478, inductor 1.8478, capacitor 0.7654. *)
Lemma C1_order_4 :
  1 <= 4 <= 20 /\
  List.length (fst (element_loop Reference.engine (Some (Num 4)) Reference.fresh)) = 4%nat /\
  map (fun k => nth_error (fst (element_loop Reference.engine (Some (Num 4)) Reference.fresh))
                          (Z.to_nat (k - 1)))
      [1; 2; 3; 4] =
    [ Some {| Element.type := lit "inductor"; Element.index := 1;
              Element.value := lit "0.7654" |};
      Some {| Element.type := lit "capacitor"; Element.index := 2;
              Element.value := lit "1.8478" |};
      Some {| Element.type := lit "inductor"; Element.index := 3;
              Element.value := lit "1.8478" |};
      Some {| Element.type := lit "capacitor"; Element.index := 4;
              Element.value := lit "0.7654" |} ] /\
  hasFractionDigits 4 (lit "0.7654").
Proof.
  assert (H4 : 1 <= 4 <= 20) by lia.
  destruct (C1_element_loop Reference.engine 4 Reference.fresh H4) as [Hlen Hnth].
  split; [exact H4 | split; [exact Hlen | split]].
  - unfold map.
    rewrite (proj1 (Hnth 1 ltac:(lia))), (proj1 (Hnth 2 ltac:(lia))),
            (proj1 (Hnth 3 ltac:(lia))), (proj1 (Hnth 4 ltac:(lia))).
    vm_compute. reflexivity.
  - assert (Hsmall : below_1e21
              (PrimFloat.mul 2
                 (Math_sin Reference.engine
                    (PrimFloat.div (PrimFloat.mul (ZToNumber (2 * 1 - 1)) Math_PI)
                                   (ZToNumber (2 * 4))))))
      by (vm_compute; reflexivity).
    exact (proj2 (Hnth 1 ltac:(lia)) Hsmall).
Defined.

(* ===================================================================== *)
(** ** The rate limiter *)
(* ===================================================================== *)

Lemma prune_In (now : Z) (history : list Z) (t : Z) :
  In t (prune now history) <-> In t history /\ now - TIME_WINDOW < t.
Proof.
  unfold prune. rewrite filter_In.
  split; intros [Hin Ht]; (split; [exact Hin|]).
  - apply Z.ltb_lt in Ht. lia.
  - apply Z.ltb_lt. lia.
Qed.

Lemma prune_length (now : Z) (history : list Z) :
  (List.length (prune now history) <= List.length history)%nat.
Proof. apply filter_length_le. Qed.

(** What [checkRateLimit] returns and leaves, by the length of the pruned
    history. *)
Lemma checkRateLimit_cases (now : Z) (s : page) :
  checkRateLimit now s =
    if MAX_REQUESTS <=? Z.of_nat (List.length (prune now (requestHistory s)))
    then ({| RateLimit.allowed := false; RateLimit.message := Some msg_rate_limit |},
          set_requestHistory (prune now (requestHistory s)) s)
    else ({| RateLimit.allowed := true; RateLimit.message := None |},
          set_requestHistory (prune now (requestHistory s) ++ [now]) s).
Proof.
  unfold checkRateLimit. cbn [requestHistory set_requestHistory].
  rewrite Z.geb_leb.
  destruct (MAX_REQUESTS <=? _); reflexivity.
Qed.

Lemma checkRateLimit_bounded (now : Z) (s : page) :
  (List.length (requestHistory s) <= 10)%nat ->
  (List.length (requestHistory (snd (checkRateLimit now s))) <= 10)%nat.
Proof.
  intro Hs. rewrite checkRateLimit_cases.
  pose proof (prune_length now (requestHistory s)) as Hp.
  unfold MAX_REQUESTS.
  destruct (10 <=? _) eqn:Hfull; cbn [snd requestHistory set_requestHistory].
  - lia.
  - apply Z.leb_gt in Hfull. rewrite length_app. simpl. lia.
Qed.

Lemma checkRateLimit_denied (now : Z) (s : page) :
  RateLimit.allowed (fst (checkRateLimit now s)) = false ->
  snd (checkRateLimit now s) = set_requestHistory (prune now (requestHistory s)) s
  /\ RateLimit.message (fst (checkRateLimit now s)) = Some msg_rate_limit.
Proof.
  rewrite checkRateLimit_cases.
  destruct (MAX_REQUESTS <=? _); cbn [fst snd RateLimit.allowed RateLimit.message].
  - intros _. split; reflexivity.
  - discriminate.
Qed.

Lemma checkRateLimit_allowed (now : Z) (s : page) :
  RateLimit.allowed (fst (checkRateLimit now s)) = true ->
  snd (checkRateLimit now s) =
    set_requestHistory (prune now (requestHistory s) ++ [now]) s.
Proof.
  rewrite checkRateLimit_cases.
  destruct (MAX_REQUESTS <=? _); cbn [fst snd RateLimit.allowed].
  - discriminate.
  - reflexivity.
Qed.

Lemma checks_bounded (times : list Z) : forall s,
  (List.length (requestHistory s) <= 10)%nat ->
  (List.length (requestHistory (snd (checks times s))) <= 10)%nat.
Proof.
  induction times as [|now later IH]; intros s Hs; simpl.
  - exact Hs.
  - pose proof (checkRateLimit_bounded now s Hs) as Hstep.
    destruct (checkRateLimit now s) as [r s1]. cbn [snd] in Hstep.
    specialize (IH s1 Hstep).
    destruct (checks later s1) as [rs s2]. exact IH.
Qed.

(** C2. With the window of 60000 ms and the maximum of 10, from an empty
    history: ten calls at time 0 are all allowed, an eleventh call at time 0
    is refused, and after ten calls at time 0 a call at time 60001 is
    allowed. *)
Theorem C2_rate_limit_scenario (s : page) :
  TIME_WINDOW = 60000 /\ MAX_REQUESTS = 10 /\
  fst (checks (repeat 0 10) (set_requestHistory [] s)) = repeat true 10 /\
  fst (checks (repeat 0 11) (set_requestHistory [] s)) = repeat true 10 ++ [false] /\
  fst (checks (repeat 0 10 ++ [60001]) (set_requestHistory [] s)) = repeat true 10 ++ [true].
Proof.
  split; [reflexivity | split; [reflexivity |]].
  split; [| split]; vm_compute; reflexivity.
Qed.

(** C5, as the code has it.  The pruning step keeps a stored timestamp t
    exactly when now - t < 60000, that is, removes it if and only if
    t <= now - 60000: a timestamp exactly 60000 ms old is removed.  If at
    least 10 timestamps remain the call is refused and now is not appended;
    otherwise now is appended and the call is allowed. *)
Theorem C5_prune_then_admit (now : Z) (s : page) :
  (forall t, In t (requestHistory s) ->
     (~ In t (prune now (requestHistory s)) <-> t <= now - 60000)) /\
  ~ In (now - 60000) (prune now (requestHistory s)) /\
  checkRateLimit now s =
    if 10 <=? Z.of_nat (List.length (prune now (requestHistory s)))
    then ({| RateLimit.allowed := false; RateLimit.message := Some msg_rate_limit |},
          set_requestHistory (prune now (requestHistory s)) s)
    else ({| RateLimit.allowed := true; RateLimit.message := None |},
          set_requestHistory (prune now (requestHistory s) ++ [now]) s).
Proof.
  split; [|split].
  - intros t Hin. rewrite prune_In. unfold TIME_WINDOW. split.
    + intro Hnot. destruct (Z_le_gt_dec t (now - 60000)) as [Hle|Hgt]; [exact Hle|].
      exfalso. apply Hnot. split; [exact Hin | lia].
    + intros Hle [_ Hlt]. lia.
  - rewrite prune_In. unfold TIME_WINDOW. intros [_ Hlt]. lia.
  - apply checkRateLimit_cases.
Qed.

(** C5 as stated fails: a call at time 60000 on the history [0] finds the
    timestamp 0 exactly 60000 ms old and drops it. *)
Lemma C5_timestamp_60000_old_is_dropped :
  0 = 60000 - TIME_WINDOW /\
  In 0 (requestHistory (set_requestHistory [0] Reference.fresh)) /\
  prune 60000 [0] = [] /\
  requestHistory (snd (checkRateLimit 60000 (set_requestHistory [0] Reference.fresh)))
    = [60000].
Proof.
  split; [reflexivity | split; [left; reflexivity | split; reflexivity]].
Qed.

(** C10. From the empty history, whatever the clock readings of the calls,
    the stored sequence never has more than MAX_REQUESTS = 10 timestamps
    after a call; and a refused call leaves the pruned sequence as it is. *)
Theorem C10_history_bounded (times : list Z) (s : page) :
  (Z.of_nat (List.length (requestHistory (snd (checks times (set_requestHistory [] s)))))
     <= MAX_REQUESTS) /\
  (forall now s',
     RateLimit.allowed (fst (checkRateLimit now s')) = false ->
     requestHistory (snd (checkRateLimit now s')) = prune now (requestHistory s')).
Proof.
  split.
  - pose proof (checks_bounded times (set_requestHistory [] s)) as H.
    cbn [requestHistory set_requestHistory List.length] in H.
    unfold MAX_REQUESTS. specialize (H ltac:(lia)). lia.
  - intros now s' Hdenied.
    destruct (checkRateLimit_denied now s' Hdenied) as [-> _]. reflexivity.
Qed.

(** Eleven calls at time 0: ten timestamps are stored, and the refused
    eleventh call leaves them. *)
Lemma C10_eleven_calls :
  Z.of_nat (List.length (requestHistory
     (snd (checks (repeat 0 11) (set_requestHistory [] Reference.fresh))))) <= MAX_REQUESTS /\
  requestHistory (snd (checkRateLimit 0 (set_requestHistory (repeat 0 10) Reference.fresh)))
    = repeat 0 10.
Proof.
  destruct (C10_history_bounded (repeat 0 11) Reference.fresh) as [Hlen Hdenied].
  split; [exact Hlen|].
  rewrite (Hdenied 0 (set_requestHistory (repeat 0 10) Reference.fresh) eq_refl).
  reflexivity.
Defined.

(* ===================================================================== *)
(** ** The validator *)
(* ===================================================================== *)

Definition rejected (message : jsstring) : Validation.result :=
  {| Validation.valid := false; Validation.message := message; Validation.value := None |}.

Definition accepted (num : number) : Validation.result :=
  {| Validation.valid := true; Validation.message := msg_validated;
     Validation.value := Some num |}.

Lemma trimStart_nil (s : jsstring) :
  trimStart s = [] <-> forallb isStrWhiteSpaceChar s = true.
Proof.
  induction s as [|c r IH]; simpl.
  - split; reflexivity.
  - destruct (isStrWhiteSpaceChar c); simpl.
    + exact IH.
    + split; discriminate.
Qed.

Lemma trimStart_keeps_last (l : jsstring) (c : code_unit) :
  isStrWhiteSpaceChar c = false -> trimStart (l ++ [c]) <> [].
Proof.
  intros Hc H. apply trimStart_nil in H.
  rewrite forallb_app in H. simpl in H. rewrite Hc in H.
  rewrite Bool.andb_false_r in H. discriminate H.
Qed.

Lemma trimStart_head (s r : jsstring) (c : code_unit) :
  trimStart s = c :: r -> isStrWhiteSpaceChar c = false.
Proof.
  induction s as [|a s IH]; simpl; [discriminate|].
  destruct (isStrWhiteSpaceChar a) eqn:Ha.
  - exact IH.
  - intro H. injection H as <- _. exact Ha.
Qed.

(** A string that trims to nothing consists of white space. *)
Lemma trim_nil (s : jsstring) : trim s = [] -> forallb isStrWhiteSpaceChar s = true.
Proof.
  unfold trim, trimEnd. intro H. apply trimStart_nil.
  destruct (trimStart s) as [|c r] eqn:Hs; [reflexivity|].
  exfalso.
  assert (Hrev : trimStart (rev (c :: r)) = []).
  { rewrite <- (rev_involutive (trimStart (rev (c :: r)))), H. reflexivity. }
  simpl in Hrev.
  exact (trimStart_keeps_last (rev r) c (trimStart_head s r c Hs) Hrev).
Qed.

Lemma includes_white_space (s : jsstring) (c : code_unit) :
  forallb isStrWhiteSpaceChar s = true -> isStrWhiteSpaceChar c = false ->
  includes s c = false.
Proof.
  intros Hs Hc. unfold includes.
  induction s as [|a r IH]; simpl; [reflexivity|].
  simpl in Hs. apply Bool.andb_true_iff in Hs. destruct Hs as [Ha Hr].
  rewrite (IH Hr), Bool.orb_false_r.
  apply N.eqb_neq. intros <-. rewrite Ha in Hc. discriminate Hc.
Qed.

(** The first rule as the code applies it: a string that does not convert
    to a number, and the empty string, are rejected as not a number. *)
Lemma validateInput_not_a_number (value : jsstring) :
  isNaN value = true \/ value = [] ->
  validateInput value = rejected msg_not_a_number.
Proof.
  intros [H | ->]; unfold validateInput.
  - rewrite H. reflexivity.
  - reflexivity.
Qed.

(** A string of white space only, not empty, passes every rule and comes
    back valid with the value NaN: [isNaN] reads it as 0, it is not the
    empty string, [parseInt] gives NaN, and no comparison with NaN holds. *)
Lemma validateInput_blank (value : jsstring) :
  value <> [] -> trim value = [] -> validateInput value = accepted NaN.
Proof.
  intros Hne Htrim.
  pose proof (trim_nil value Htrim) as Hws.
  assert (Hstart : trimStart value = []) by (apply trimStart_nil; exact Hws).
  unfold validateInput, isNaN, isStringNumericLiteral, parseInt10.
  rewrite Htrim, Hstart.
  destruct value as [|c r]; [contradiction|].
  cbn [negb nonEmpty orb spanDigits lessThan greaterThan].
  rewrite !includes_white_space by (exact Hws || reflexivity).
  reflexivity.
Qed.

(** C3 at the input of one space.  Its trimmed content is empty, and
    [validateInput] returns it as valid, with the value NaN and the
    message of success, where the specification wants the rejection as not a
    number. *)
Theorem C3_one_space_is_accepted :
  trim (lit " ") = [] /\
  validateInput (lit " ") = accepted NaN /\
  validateInput (lit " ") <> rejected msg_not_a_number.
Proof.
  split; [reflexivity | split; [reflexivity | discriminate]].
Qed.

(** What the handler then does with it on a fresh page: no element is
    computed, the (empty) batch is rendered, and the audit line reports the
    input NaN with 0 elements. *)
Lemma submit_one_space (E : engine) (date : Z) :
  let s := submit E 0 date (lit " ") Reference.fresh in
  shown s = [] /\
  calls s = [CallCheckRateLimit; CallValidateInput; CallRenderResults; CallConsoleLog] /\
  console s =
    [[VString (lit "[SECURITY AUDIT]");
      VObject [ ("timestamp"%string, VString (toISOString date));
                ("action"%string, VString (lit "CALCULATION_PERFORMED"));
                ("input"%string, VNumber NaN);
                ("elements"%string, VNumber (Num 0));
                ("requestCount"%string, VNumber (Num 1)) ]]].
Proof.
  repeat split.
Qed.

(** C4. [validateInput] rejects the empty string, "abc", "0", "21", "3.5"
    and "1,5", and accepts each of "1" to "20" with that integer as
    value. *)
Theorem C4_validator_table :
  Forall (fun input => Validation.valid (validateInput input) = false)
    [ []; lit "abc"; lit "0"; lit "21"; lit "3.5"; lit "1,5" ] /\
  Forall (fun '(input, n) => validateInput input = accepted (Num n))
    [ (lit "1", 1); (lit "2", 2); (lit "3", 3); (lit "4", 4); (lit "5", 5);
      (lit "6", 6); (lit "7", 7); (lit "8", 8); (lit "9", 9); (lit "10", 10);
      (lit "11", 11); (lit "12", 12); (lit "13", 13); (lit "14", 14);
      (lit "15", 15); (lit "16", 16); (lit "17", 17); (lit "18", 18);
      (lit "19", 19); (lit "20", 20) ].
Proof.
  split; repeat (constructor; [reflexivity|]); constructor.
Qed.

(** Which rule rejects each of the six. *)
Lemma validator_rejections :
  validateInput [] = rejected msg_not_a_number /\
  validateInput (lit "abc") = rejected msg_not_a_number /\
  validateInput (lit "0") = rejected msg_out_of_range /\
  validateInput (lit "21") = rejected msg_out_of_range /\
  validateInput (lit "3.5") = rejected msg_integer_required /\
  validateInput (lit "1,5") = rejected msg_not_a_number.
Proof.
  repeat split.
Qed.

(** A valid result carries an integer from 1 to 20 or NaN. *)
Lemma validateInput_valid (value : jsstring) :
  Validation.valid (validateInput value) = true ->
  exists num, validateInput value = accepted num /\
    match num with Num n => MIN_INPUT <= n <= MAX_INPUT | NaN => True end.
Proof.
  unfold validateInput.
  destruct (isNaN value || negb (nonEmpty value)); [discriminate|].
  destruct (lessThan (parseInt10 value) (Num MIN_INPUT)
            || greaterThan (parseInt10 value) (Num MAX_INPUT)) eqn:Hrange; [discriminate|].
  destruct (includes value (cu ".") || includes value (cu ",")); [discriminate|].
  intros _. exists (parseInt10 value). split; [reflexivity|].
  apply Bool.orb_false_iff in Hrange. destruct Hrange as [Hlo Hhi].
  destruct (parseInt10 value) as [|n]; [exact I|].
  unfold greaterThan, lessThan in *.
  apply Z.ltb_ge in Hlo. apply Z.ltb_ge in Hhi. lia.
Qed.

(* ===================================================================== *)
(** ** The renderer *)
(* ===================================================================== *)

Lemma forEach_nodes (elements : list Element.t) : forall index s,
  nodes (forEach elements index s) = nodes s ++ map result_div elements.
Proof.
  induction elements as [|e rest IH]; intros index s; simpl.
  - now rewrite app_nil_r.
  - rewrite IH. cbn [render_element setTimeout set_resultField set_nodes nodes].
    now rewrite <- app_assoc.
Qed.

Lemma forEach_resultField (elements : list Element.t) : forall index s,
  resultField (forEach elements index s) =
    resultField s ++ seq (List.length (nodes s)) (List.length elements).
Proof.
  induction elements as [|e rest IH]; intros index s; simpl.
  - now rewrite app_nil_r.
  - rewrite IH.
    cbn [render_element setTimeout set_resultField set_nodes nodes resultField].
    rewrite length_app, <- app_assoc. simpl.
    now rewrite Nat.add_1_r.
Qed.

(** Rendering writes on the divs, the result region and the timers only. *)
Lemma forEach_frame (elements : list Element.t) : forall index s,
  requestHistory (forEach elements index s) = requestHistory s /\
  inputValidation (forEach elements index s) = inputValidation s /\
  console (forEach elements index s) = console s /\
  calls (forEach elements index s) = calls s.
Proof.
  induction elements as [|e rest IH]; intros index s; simpl.
  - repeat split.
  - destruct (IH (index + 1) (render_element e index s)) as (H1 & H2 & H3 & H4).
    rewrite H1, H2, H3, H4. repeat split.
Qed.

(** The divs at the positions [length old ..] of [old ++ new] are [new]. *)
Lemma lookup_fresh (new : list div) : forall old,
  flat_map (fun id => match nth_error (old ++ new) id with
                      | Some d => [d]
                      | None => []
                      end)
           (seq (List.length old) (List.length new)) = new.
Proof.
  induction new as [|d new IH]; intro old; simpl; [reflexivity|].
  rewrite nth_error_app2 by lia. rewrite Nat.sub_diag. simpl. f_equal.
  specialize (IH (old ++ [d])).
  rewrite <- app_assoc, length_app in IH. simpl in IH.
  rewrite Nat.add_1_r in IH. exact IH.
Qed.

(** After [renderResults] the result region shows the divs of the batch
    and nothing else, whatever it showed before. *)
Lemma renderResults_shown (elements : list Element.t) (s : page) :
  shown (renderResults elements s) = map result_div elements.
Proof.
  unfold shown, renderResults.
  rewrite forEach_nodes, forEach_resultField.
  cbn [set_resultField nodes resultField app].
  rewrite <- (length_map result_div elements).
  apply lookup_fresh.
Qed.

Lemma update_nth_other {A : Type} (f : A -> A) (l : list A) : forall i j,
  i <> j -> nth_error (update_nth i f l) j = nth_error l j.
Proof.
  induction l as [|x r IH]; intros i j Hij.
  - destruct i; reflexivity.
  - destruct i as [|i], j as [|j]; simpl; try reflexivity; try congruence.
    apply IH. congruence.
Qed.

(** A timer that adds [show] to a div outside the result region does not
    change what the region shows. *)
Lemma fire_detached (id : nat) (s : page) :
  ~ In id (resultField s) -> shown (fire (AddShow id) s) = shown s.
Proof.
  unfold shown, fire. cbn [set_nodes nodes resultField].
  induction (resultField s) as [|j r IH]; intro Hid; simpl; [reflexivity|].
  rewrite update_nth_other by (intros ->; apply Hid; now left).
  f_equal. apply IH. intro H. apply Hid. now right.
Qed.

(** The timers left by an earlier render name divs that the next render
    has detached: when they fire, the region still shows the new batch. *)
Lemma stale_timer_harmless (A B : list Element.t) (s : page) (id : nat) :
  (List.length (nodes s) <= id < List.length (nodes s) + List.length A)%nat ->
  shown (fire (AddShow id) (renderResults B (renderResults A s))) = map result_div B.
Proof.
  intro Hid. rewrite fire_detached; [apply renderResults_shown|].
  unfold renderResults at 1.
  rewrite forEach_resultField.
  cbn [set_resultField nodes resultField app].
  unfold renderResults. rewrite forEach_nodes.
  cbn [set_resultField nodes]. rewrite length_app, length_map.
  rewrite in_seq. lia.
Qed.

(** C7. [renderResults] first clears the result region: after rendering a
    batch A and then a batch B the region shows exactly the divs of B, the
    same as rendering B on a page whose region is empty. *)
Theorem C7_render_replaces (A B : list Element.t) (s s0 : page) :
  shown (renderResults B (renderResults A s)) = map result_div B /\
  shown (renderResults B (renderResults A s)) =
    shown (renderResults B (set_resultField [] s0)).
Proof.
  split.
  - apply renderResults_shown.
  - now rewrite !renderResults_shown.
Qed.

(* ===================================================================== *)
(** ** The submit handler *)
(* ===================================================================== *)

Lemma checkRateLimit_enter (now : Z) (c : call) (s : page) :
  checkRateLimit now (enter c s) =
    (fst (checkRateLimit now s), enter c (snd (checkRateLimit now s))).
Proof.
  rewrite !checkRateLimit_cases. cbn [enter requestHistory].
  destruct (MAX_REQUESTS <=? _); reflexivity.
Qed.

(** Typing in the field charges nothing: only a submission writes the
    request history. *)
Lemma input_requestHistory (value : jsstring) (s : page) :
  requestHistory (input value s) = requestHistory s.
Proof.
  unfold input, showValidationMessage.
  destruct (negb (Validation.valid (validateInput value)) && nonEmpty value);
    [reflexivity|].
  destruct (Validation.valid (validateInput value)); reflexivity.
Qed.

(** The handler when the rate limiter refuses. *)
Lemma submit_denied (E : engine) (now date : Z) (value : jsstring) (s : page) :
  RateLimit.allowed (fst (checkRateLimit now s)) = false ->
  submit E now date value s =
    showValidationMessage msg_rate_limit true
      (enter CallShowValidationMessage
         (enter CallCheckRateLimit
            (set_requestHistory (prune now (requestHistory s)) s))).
Proof.
  intro Hdenied. unfold submit. rewrite checkRateLimit_enter.
  destruct (checkRateLimit_denied now s Hdenied) as [Hpage Hmsg].
  rewrite Hdenied, Hmsg, Hpage. reflexivity.
Qed.

(** The handler when the rate limiter allows and the validator rejects. *)
Lemma submit_invalid (E : engine) (now date : Z) (value : jsstring) (s : page) :
  RateLimit.allowed (fst (checkRateLimit now s)) = true ->
  Validation.valid (validateInput value) = false ->
  submit E now date value s =
    showValidationMessage (Validation.message (validateInput value)) true
      (enter CallShowValidationMessage
         (enter CallValidateInput
            (enter CallCheckRateLimit
               (set_requestHistory (prune now (requestHistory s) ++ [now]) s)))).
Proof.
  intros Hallowed Hinvalid. unfold submit. rewrite checkRateLimit_enter.
  rewrite (checkRateLimit_allowed now s Hallowed), Hallowed, Hinvalid.
  reflexivity.
Qed.

(** The handler when both let the submission through. *)
Lemma submit_valid (E : engine) (now date : Z) (value : jsstring) (s : page) :
  RateLimit.allowed (fst (checkRateLimit now s)) = true ->
  Validation.valid (validateInput value) = true ->
  let n := Validation.value (validateInput value) in
  let s2 := enter CallValidateInput
              (enter CallCheckRateLimit
                 (set_requestHistory (prune now (requestHistory s) ++ [now]) s)) in
  let elements := fst (element_loop E n s2) in
  let s4 := renderResults elements (enter CallRenderResults (snd (element_loop E n s2))) in
  submit E now date value s =
    console_log [VString (lit "[SECURITY AUDIT]"); audit_record date n elements s4]
      (enter CallConsoleLog s4).
Proof.
  intros Hallowed Hvalid. unfold submit. rewrite checkRateLimit_enter.
  rewrite (checkRateLimit_allowed now s Hallowed), Hallowed, Hvalid.
  cbn [negb].
  destruct (element_loop E _ _) as [elements s3]. reflexivity.
Qed.

Lemma element_loop_page (E : engine) (n : option number) (s : page) :
  same_but_calls s (snd (element_loop E n s)).
Proof.
  destruct n as [[|z]|]; cbn [element_loop snd].
  - repeat split.
  - apply for_k_page.
  - repeat split.
Qed.

(** C6. The handler calls the rate limiter first.  When the limiter
    refuses, the handler only shows the limiter's message: the validator is
    not called, nothing is calculated, rendered or logged.  When the limiter
    allows and the validator rejects, the timestamp the limiter appended
    for this submission stays in the history. *)
Theorem C6_rate_limit_before_validation
    (E : engine) (now date : Z) (value : jsstring) (s : page) :
  let s' := submit E now date value s in
  (exists later, calls s' = calls s ++ CallCheckRateLimit :: later) /\
  (RateLimit.allowed (fst (checkRateLimit now s)) = false ->
     calls s' = calls s ++ [CallCheckRateLimit; CallShowValidationMessage] /\
     textContent (inputValidation s') = msg_rate_limit /\
     nodes s' = nodes s /\ resultField s' = resultField s /\
     console s' = console s /\
     requestHistory s' = prune now (requestHistory s)) /\
  (RateLimit.allowed (fst (checkRateLimit now s)) = true ->
   Validation.valid (validateInput value) = false ->
     calls s' = calls s ++ [CallCheckRateLimit; CallValidateInput;
                            CallShowValidationMessage] /\
     textContent (inputValidation s') = Validation.message (validateInput value) /\
     nodes s' = nodes s /\ resultField s' = resultField s /\
     console s' = console s /\
     requestHistory s' = prune now (requestHistory s) ++ [now]).
Proof.
  intro s'. subst s'.
  assert (Hdenied : RateLimit.allowed (fst (checkRateLimit now s)) = false ->
     calls (submit E now date value s)
       = calls s ++ [CallCheckRateLimit; CallShowValidationMessage] /\
     textContent (inputValidation (submit E now date value s)) = msg_rate_limit /\
     nodes (submit E now date value s) = nodes s /\
     resultField (submit E now date value s) = resultField s /\
     console (submit E now date value s) = console s /\
     requestHistory (submit E now date value s) = prune now (requestHistory s)).
  { intro H. rewrite (submit_denied E now date value s H).
    cbn. rewrite <- app_assoc. repeat split. }
  assert (Hinvalid : RateLimit.allowed (fst (checkRateLimit now s)) = true ->
     Validation.valid (validateInput value) = false ->
     calls (submit E now date value s)
       = calls s ++ [CallCheckRateLimit; CallValidateInput; CallShowValidationMessage] /\
     textContent (inputValidation (submit E now date value s))
       = Validation.message (validateInput value) /\
     nodes (submit E now date value s) = nodes s /\
     resultField (submit E now date value s) = resultField s /\
     console (submit E now date value s) = console s /\
     requestHistory (submit E now date value s) = prune now (requestHistory s) ++ [now]).
  { intros H1 H2. rewrite (submit_invalid E now date value s H1 H2).
    cbn. rewrite <- !app_assoc. repeat split. }
  split; [|split; assumption].
  destruct (RateLimit.allowed (fst (checkRateLimit now s))) eqn:Hallowed.
  - destruct (Validation.valid (validateInput value)) eqn:Hvalid.
    + rewrite (submit_valid E now date value s Hallowed Hvalid).
      cbn [console_log enter calls].
      unfold renderResults.
      destruct (forEach_frame
                  (fst (element_loop E (Validation.value (validateInput value))
                          (enter CallValidateInput (enter CallCheckRateLimit
                             (set_requestHistory (prune now (requestHistory s) ++ [now]) s)))))
                  0
                  (set_resultField []
                     (enter CallRenderResults
                        (snd (element_loop E (Validation.value (validateInput value))
                          (enter CallValidateInput (enter CallCheckRateLimit
                             (set_requestHistory (prune now (requestHistory s) ++ [now]) s))))))))
        as (_ & _ & _ & ->).
      cbn [set_resultField enter calls].
      destruct (Validation.value (validateInput value)) as [[|z]|];
        cbn [element_loop snd calls enter set_requestHistory].
      * eexists. rewrite <- !app_assoc. reflexivity.
      * rewrite for_k_calls by lia.
        cbn [enter calls set_requestHistory].
        eexists. rewrite <- !app_assoc. reflexivity.
      * eexists. rewrite <- !app_assoc. reflexivity.
    + destruct (Hinvalid eq_refl eq_refl) as [-> _].
      eexists. reflexivity.
  - destruct (Hdenied eq_refl) as [-> _].
    eexists. reflexivity.
Qed.

(** The two refusals on the reference engine.  On a page that already holds
    ten requests at time 0, a submission of "4" at time 0 stops at the rate
    limiter.  On a fresh page a submission of "abc" at time 0 is rejected by
    the validator and the history keeps its timestamp. *)
Lemma C6_two_refusals :
  calls (submit Reference.engine 0 0 (lit "4")
           (set_requestHistory (repeat 0 10) Reference.fresh))
    = [CallCheckRateLimit; CallShowValidationMessage] /\
  requestHistory (submit Reference.engine 0 0 (lit "abc") Reference.fresh) = [0].
Proof.
  split.
  - destruct (C6_rate_limit_before_validation Reference.engine 0 0 (lit "4")
                (set_requestHistory (repeat 0 10) Reference.fresh))
      as (_ & Hdenied & _).
    destruct (Hdenied eq_refl) as [Hcalls _]. exact Hcalls.
  - destruct (C6_rate_limit_before_validation Reference.engine 0 0 (lit "abc")
                Reference.fresh)
      as (_ & _ & Hinvalid).
    destruct (Hinvalid eq_refl eq_refl) as (_ & _ & _ & _ & _ & Hhistory).
    exact Hhistory.
Defined.

(* ===================================================================== *)
(** ** The audit line *)
(* ===================================================================== *)

Lemma pad_length (w : nat) : forall z, List.length (pad w z) = w.
Proof.
  induction w as [|w IH]; intro z; simpl; [reflexivity|].
  rewrite length_app, IH. simpl. lia.
Qed.

Lemma pad_digits (w : nat) : forall z, forallb isDecimalDigit (pad w z) = true.
Proof.
  induction w as [|w IH]; intro z; [reflexivity|].
  cbn [pad]. rewrite forallb_app, IH.
  cbn [forallb andb]. rewrite Bool.andb_true_r.
  unfold isDecimalDigit.
  pose proof (Z.mod_pos_bound z 10 ltac:(lia)) as Hd.
  apply Bool.andb_true_iff. split; apply N.leb_le; lia.
Qed.

(** [toISOString] always writes a date and time in the ISO 8601 format. *)
Lemma toISOString_isISO8601 (tv : Z) : isISO8601 (toISOString tv).
Proof.
  unfold toISOString, isISO8601.
  destruct (civil (tv / 86400000)) as [[y m] d].
  do 7 eexists. split; [reflexivity|].
  split; [|split; [|split]].
  - destruct ((0 <=? y) && (y <=? 9999)).
    + left. split; [apply pad_length | apply pad_digits].
    + right. destruct (y <? 0); cbn [lit list_ascii_of_string map app];
        do 2 eexists; (split; [reflexivity|]);
        (split; [auto | split; [apply pad_length | apply pad_digits]]).
  - repeat constructor; (apply pad_length || apply pad_digits).
  - apply pad_length.
  - apply pad_digits.
Qed.

(** How the fields of the page pass through the steps of the handler. *)
Lemma console_console_log (args : list jsvalue) (s : page) :
  console (console_log args s) = console s ++ [args].
Proof. reflexivity. Qed.

Lemma requestHistory_console_log (args : list jsvalue) (s : page) :
  requestHistory (console_log args s) = requestHistory s.
Proof. reflexivity. Qed.

Lemma shown_console_log (args : list jsvalue) (s : page) :
  shown (console_log args s) = shown s.
Proof. reflexivity. Qed.

Lemma console_enter (c : call) (s : page) : console (enter c s) = console s.
Proof. reflexivity. Qed.

Lemma requestHistory_enter (c : call) (s : page) :
  requestHistory (enter c s) = requestHistory s.
Proof. reflexivity. Qed.

Lemma shown_enter (c : call) (s : page) : shown (enter c s) = shown s.
Proof. reflexivity. Qed.

Lemma console_set_requestHistory (h : list Z) (s : page) :
  console (set_requestHistory h s) = console s.
Proof. reflexivity. Qed.

Lemma requestHistory_set_requestHistory (h : list Z) (s : page) :
  requestHistory (set_requestHistory h s) = h.
Proof. reflexivity. Qed.

Lemma console_renderResults (elements : list Element.t) (s : page) :
  console (renderResults elements s) = console s.
Proof. unfold renderResults. now destruct (forEach_frame elements 0 (set_resultField [] s)) as (_ & _ & -> & _). Qed.

Lemma requestHistory_renderResults (elements : list Element.t) (s : page) :
  requestHistory (renderResults elements s) = requestHistory s.
Proof. unfold renderResults. now destruct (forEach_frame elements 0 (set_resultField [] s)) as (-> & _). Qed.

Lemma console_element_loop (E : engine) (n : option number) (s : page) :
  console (snd (element_loop E n s)) = console s.
Proof. now destruct (element_loop_page E n s) as (_ & _ & _ & _ & _ & ->). Qed.

Lemma requestHistory_element_loop (E : engine) (n : option number) (s : page) :
  requestHistory (snd (element_loop E n s)) = requestHistory s.
Proof. now destruct (element_loop_page E n s) as (-> & _). Qed.

Create Rewrite HintDb page.

#[local] Hint Rewrite
  console_console_log requestHistory_console_log shown_console_log
  console_enter requestHistory_enter shown_enter
  console_set_requestHistory requestHistory_set_requestHistory
  console_renderResults requestHistory_renderResults
  console_element_loop requestHistory_element_loop renderResults_shown : page.

(** The elements the loop computes do not depend on the page. *)
Lemma element_loop_any_page (E : engine) (n : option number) (s s0 : page) :
  fst (element_loop E n s) = fst (element_loop E n s0).
Proof.
  destruct n as [[|z]|]; try reflexivity.
  now rewrite !element_loop_elements.
Qed.

(** C8, as the code has it.  A submission that the rate limiter allows and
    the validator accepts with the integer n writes exactly one line to the
    console: the tag and a record whose timestamp is the ISO 8601 string
    of the clock, whose action is "CALCULATION_PERFORMED", whose input is
    n, whose property [elements] (the record has no elementCount) is the
    number of computed elements, which is n, and whose requestCount is the
    length of the request history, this submission included. *)
Theorem C8_audit_record
    (E : engine) (now date : Z) (value : jsstring) (s : page) (n : Z) :
  RateLimit.allowed (fst (checkRateLimit now s)) = true ->
  validateInput value = accepted (Num n) ->
  let s' := submit E now date value s in
  let elements := fst (element_loop E (Some (Num n)) s) in
  console s' =
    console s ++
      [[VString (lit "[SECURITY AUDIT]");
        VObject
          [ ("timestamp"%string, VString (toISOString date));
            ("action"%string, VString (lit "CALCULATION_PERFORMED"));
            ("input"%string, VNumber (Num n));
            ("elements"%string, VNumber (Num (Z.of_nat (List.length elements))));
            ("requestCount"%string,
             VNumber (Num (Z.of_nat (List.length (requestHistory s'))))) ]]] /\
  isISO8601 (toISOString date) /\
  Z.of_nat (List.length elements) = n /\
  shown s' = map result_div elements /\
  requestHistory s' = prune now (requestHistory s) ++ [now].
Proof.
  intros Hallowed Haccepted s' elements. subst s' elements.
  assert (Hvalid : Validation.valid (validateInput value) = true)
    by (rewrite Haccepted; reflexivity).
  destruct (validateInput_valid value Hvalid) as (num & Hnum & Hrange).
  rewrite Haccepted in Hnum. injection Hnum as <-.
  unfold MIN_INPUT, MAX_INPUT in Hrange.
  rewrite (submit_valid E now date value s Hallowed Hvalid).
  cbv zeta. rewrite Haccepted. cbn [Validation.value accepted].
  unfold audit_record. autorewrite with page.
  rewrite (element_loop_any_page E (Some (Num n)) _ s).
  split; [reflexivity|].
  split; [apply toISOString_isISO8601|].
  split; [rewrite element_loop_elements, length_map, Zseq_length; lia|].
  split; reflexivity.
Qed.

(** A submission of "4" on a fresh page: one line is logged, with 4 as
    input, 4 elements and 1 request. *)
Lemma C8_order_4 :
  console (submit Reference.engine 0 1700000000000 (lit "4") Reference.fresh) =
    [[VString (lit "[SECURITY AUDIT]");
      VObject
        [ ("timestamp"%string, VString (lit "2023-11-14T22:13:20.000Z"));
          ("action"%string, VString (lit "CALCULATION_PERFORMED"));
          ("input"%string, VNumber (Num 4));
          ("elements"%string, VNumber (Num 4));
          ("requestCount"%string, VNumber (Num 1)) ]]].
Proof.
  destruct (C8_audit_record Reference.engine 0 1700000000000 (lit "4")
              Reference.fresh 4 eq_refl eq_refl) as (Hconsole & _ & Hn & _ & Hhistory).
  rewrite Hconsole, Hhistory, Hn. reflexivity.
Defined.

(** C8 as stated fails on the name of one property: the record logged for
    "4" has no elementCount; the count of elements is its property
    [elements]. *)
Lemma C8_record_has_no_elementCount :
  exists props,
    console (submit Reference.engine 0 0 (lit "4") Reference.fresh) =
      [[VString (lit "[SECURITY AUDIT]"); VObject props]] /\
    getProp props "elementCount" = None /\
    getProp props "elements" = Some (VNumber (Num 4)).
Proof.
  eexists. split; [vm_compute; reflexivity | split; reflexivity].
Qed.

(* ===================================================================== *)
(** ** The two variants *)
(* ===================================================================== *)

Lemma legacy_for_k_lines (E : engine) (fuel : nat) : forall k n innerHTML,
  (Z.to_nat (n + 1 - k) <= fuel)%nat ->
  Legacy.for_k E fuel k n innerHTML =
    innerHTML ++ map (fun j => Legacy.elements E j n) (Zseq k (Z.to_nat (n + 1 - k))).
Proof.
  induction fuel as [|fuel IH]; intros k n innerHTML Hfuel.
  - replace (Z.to_nat (n + 1 - k)) with 0%nat by lia. simpl. now rewrite app_nil_r.
  - simpl. destruct (k <=? n) eqn:Hk.
    + apply Z.leb_le in Hk.
      rewrite IH by lia.
      replace (Z.to_nat (n + 1 - k)) with (S (Z.to_nat (n + 1 - (k + 1)))) by lia.
      simpl. now rewrite <- app_assoc.
    + apply Z.leb_gt in Hk.
      replace (Z.to_nat (n + 1 - k)) with 0%nat by lia. simpl. now rewrite app_nil_r.
Qed.

Lemma legacy_submit_lines (E : engine) (n : Z) :
  Legacy.submit E n = map (fun k => Legacy.elements E k n) (Zseq 1 (Z.to_nat n)).
Proof.
  unfold Legacy.submit. rewrite legacy_for_k_lines by lia.
  simpl. do 2 f_equal. lia.
Qed.

(** The sentence the current variant shows for an element of the loop, and
    the markup the earlier variant writes for the same index. *)
Lemma sentence_of_calculated (E : engine) (k n : Z) :
  sentence (result_div (calculateElements E k n)) =
    lit "El " ++ Element.type (calculateElements E k n) ++ lit " " ++ ZToString k
      ++ lit " vale " ++ toFixed (ak E k n) 4.
Proof.
  unfold sentence, result_div, calculateElements.
  cbn [children span_textContent Element.type Element.index Element.value].
  rewrite toFixed_parseFloat.
  destruct (Z.rem k 2 =? 0); reflexivity.
Qed.

Lemma legacy_line_of_calculated (E : engine) (k n : Z) :
  Legacy.elements E k n =
    lit "El " ++ Element.type (calculateElements E k n) ++ lit " " ++ ZToString k
      ++ lit " vale " ++ toFixed (ak E k n) 3 ++ lit "<br>".
Proof.
  unfold Legacy.elements, Legacy.elemento, Legacy.result, calculateElements, ak.
  cbn [Element.type]. rewrite toFixed_parseFloat. reflexivity.
Qed.

Lemma afterPoint_after (pre frac : jsstring) :
  forallb (fun c => negb (N.eqb c (cu "."))) pre = true ->
  afterPoint (pre ++ cu "." :: frac) = frac.
Proof.
  induction pre as [|c r IH]; intro H.
  - reflexivity.
  - cbn [forallb] in H. apply Bool.andb_true_iff in H. destruct H as [Hc Hr].
    cbn [app afterPoint]. apply Bool.negb_true_iff in Hc. rewrite Hc. exact (IH Hr).
Qed.

Lemma digits_have_no_point (ds : jsstring) :
  forallb isDecimalDigit ds = true ->
  forallb (fun c => negb (N.eqb c (cu "."))) ds = true.
Proof.
  intro H. apply forallb_forall. intros c Hc.
  rewrite forallb_forall in H. specialize (H c Hc).
  unfold isDecimalDigit in H. apply Bool.andb_true_iff in H. destruct H as [Hlo _].
  apply N.leb_le in Hlo. apply Bool.negb_true_iff, N.eqb_neq.
  intros ->. vm_compute in Hlo. congruence.
Qed.

(** The number of fraction digits can be read off the string. *)
Lemma fraction_digits_count (f : nat) (t : jsstring) :
  hasFractionDigits f t -> List.length (afterPoint t) = f.
Proof.
  intros (sign & int & frac & -> & Hsign & _ & Hint & Hlen & _).
  rewrite app_assoc. change (lit "." ++ frac) with (cu "." :: frac).
  rewrite afterPoint_after; [exact Hlen|].
  rewrite forallb_app. apply Bool.andb_true_iff. split.
  - destruct Hsign as [-> | ->]; reflexivity.
  - apply digits_have_no_point, Hint.
Qed.

(** A finite number below 10^21 in magnitude is printed differently with
    3 and with 4 fraction digits. *)
Lemma toFixed_3_4_differ (x : float) :
  below_1e21 x -> toFixed x 3 <> toFixed x 4.
Proof.
  intros Hx Heq.
  pose proof (fraction_digits_count 3 _ (toFixed_fraction_digits x 3 ltac:(lia) Hx)) as H3.
  pose proof (fraction_digits_count 4 _ (toFixed_fraction_digits x 4 ltac:(lia) Hx)) as H4.
  rewrite Heq in H3. rewrite H3 in H4. discriminate H4.
Qed.

(** C9, as the code has it.  For every valid n the two variants run over
    the same indices 1..n with the same element types and the same number
    2 * Math.sin((2k - 1) * Math.PI / (2n)); the earlier variant prints it
    with 3 fraction digits and ends each line with a br tag, the current
    one prints it with 4 fraction digits.  Whenever that number is finite
    and below 10^21 in magnitude, the two printed value strings differ,
    and so does the line of the earlier variant from the sentence of the
    current one followed by the br tag. *)
Theorem C9_variants_differ_in_precision (E : engine) (n : Z) (s : page) :
  1 <= n <= 20 ->
  let current := fst (element_loop E (Some (Num n)) s) in
  List.length (Legacy.submit E n) = List.length current /\
  Legacy.submit E n =
    map (fun e => lit "El " ++ Element.type e ++ lit " " ++ ZToString (Element.index e)
                    ++ lit " vale " ++ toFixed (ak E (Element.index e) n) 3
                    ++ lit "<br>") current /\
  map sentence (shown (renderResults current s)) =
    map (fun e => lit "El " ++ Element.type e ++ lit " " ++ ZToString (Element.index e)
                    ++ lit " vale " ++ toFixed (ak E (Element.index e) n) 4) current /\
  (forall k, 1 <= k <= n -> below_1e21 (ak E k n) ->
     nth_error (map Element.value current) (Z.to_nat (k - 1))
       = Some (toFixed (ak E k n) 4) /\
     toFixed (ak E k n) 3 <> toFixed (ak E k n) 4 /\
     Legacy.elements E k n
       <> sentence (result_div (calculateElements E k n)) ++ lit "<br>").
Proof.
  intros Hn current. subst current.
  rewrite renderResults_shown, element_loop_elements, legacy_submit_lines.
  rewrite !length_map, !map_map.
  split; [reflexivity | split; [|split]].
  - apply map_ext; intro k. apply legacy_line_of_calculated.
  - apply map_ext; intro k. apply sentence_of_calculated.
  - intros k Hk Hsmall.
    pose proof (toFixed_3_4_differ (ak E k n) Hsmall) as Hdiff.
    split; [|split; [exact Hdiff|]].
    + rewrite nth_error_map, Zseq_nth by lia.
      replace (1 + Z.of_nat (Z.to_nat (k - 1))) with k by lia.
      unfold option_map, calculateElements. cbn [Element.value].
      now rewrite toFixed_parseFloat.
    + rewrite legacy_line_of_calculated, sentence_of_calculated.
      intro Heq. apply Hdiff.
      rewrite <- !app_assoc in Heq.
      do 5 apply app_inv_head in Heq.
      apply app_inv_tail in Heq. exact Heq.
Qed.

(** Order 4 on the reference engine, in both variants; the first number
    is finite, printed 0.765 by the one and 0.7654 by the other. *)
Lemma C9_order_4 :
  Legacy.submit Reference.engine 4 =
    [ lit "El inductor 1 vale 0.765<br>"; lit "El capacitor 2 vale 1.848<br>";
      lit "El inductor 3 vale 1.848<br>"; lit "El capacitor 4 vale 0.765<br>" ] /\
  map sentence
      (shown (renderResults (fst (element_loop Reference.engine (Some (Num 4)) Reference.fresh))
                Reference.fresh)) =
    [ lit "El inductor 1 vale 0.7654"; lit "El capacitor 2 vale 1.8478";
      lit "El inductor 3 vale 1.8478"; lit "El capacitor 4 vale 0.7654" ] /\
  below_1e21 (ak Reference.engine 1 4) /\
  toFixed (ak Reference.engine 1 4) 3 <> toFixed (ak Reference.engine 1 4) 4.
Proof.
  assert (Hsmall : below_1e21 (ak Reference.engine 1 4)) by (vm_compute; reflexivity).
  destruct (C9_variants_differ_in_precision Reference.engine 4 Reference.fresh
              ltac:(lia)) as (_ & Hlegacy & Hcurrent & Hdiffer).
  destruct (Hdiffer 1 ltac:(lia) Hsmall) as (_ & Hvalues & _).
  rewrite Hlegacy, Hcurrent.
  split; [vm_compute; reflexivity | split; [vm_compute; reflexivity |]].
  split; [exact Hsmall | exact Hvalues].
Defined.

(** C9 as stated fails at n = 1: the number is 2, which the earlier
    variant prints as 2.000 and the current one as 2.0000. *)
Lemma C9_order_1_value_strings_differ :
  Legacy.submit Reference.engine 1 = [lit "El inductor 1 vale 2.000<br>"] /\
  map sentence (shown (submit Reference.engine 0 0 (lit "1") Reference.fresh)) =
    [lit "El inductor 1 vale 2.0000"] /\
  toFixed (Legacy.result Reference.engine 1 1) 3 = lit "2.000" /\
  map Element.value (fst (element_loop Reference.engine (Some (Num 1)) Reference.fresh)) =
    [lit "2.0000"].
Proof.
  repeat split; vm_compute; reflexivity.
Qed.

(* ===================================================================== *)
(** ** Further properties of the validator *)
(* ===================================================================== *)

Lemma digit_not_white_space (c : code_unit) :
  isDecimalDigit c = true -> isStrWhiteSpaceChar c = false.
Proof.
  unfold isDecimalDigit. intro H. apply Bool.andb_true_iff in H.
  destruct H as [Hlo Hhi]. apply N.leb_le in Hlo. apply N.leb_le in Hhi.
  assert (Hc : (c = 48 \/ c = 49 \/ c = 50 \/ c = 51 \/ c = 52 \/ c = 53 \/
                c = 54 \/ c = 55 \/ c = 56 \/ c = 57)%N) by lia.
  repeat (destruct Hc as [-> | Hc]; [reflexivity|]). subst c. reflexivity.
Qed.

Lemma digit_not_sign (c : code_unit) :
  isDecimalDigit c = true ->
  N.eqb c (cu "+") = false /\ N.eqb c (cu "-") = false /\
  N.eqb c (cu ".") = false /\ N.eqb c (cu ",") = false.
Proof.
  unfold isDecimalDigit. intro H. apply Bool.andb_true_iff in H.
  destruct H as [Hlo Hhi]. apply N.leb_le in Hlo. apply N.leb_le in Hhi.
  repeat split; apply N.eqb_neq; intros ->; vm_compute in Hlo; congruence.
Qed.

Lemma trimStart_first (c : code_unit) (r : jsstring) :
  isStrWhiteSpaceChar c = false -> trimStart (c :: r) = c :: r.
Proof. intro H. simpl. now rewrite H. Qed.

(** A string whose first and last units are not white space is its own
    trim. *)
Lemma trim_tight (s : jsstring) (first last : code_unit) (middle : jsstring) :
  s = first :: middle -> rev s = last :: rev (removelast s) ->
  isStrWhiteSpaceChar first = false -> isStrWhiteSpaceChar last = false ->
  trim s = s.
Proof.
  intros Hs Hrev Hfirst Hlast. unfold trim, trimEnd.
  rewrite Hs at 1. rewrite trimStart_first by exact Hfirst. rewrite <- Hs.
  rewrite Hrev, trimStart_first by exact Hlast.
  rewrite <- Hrev. apply rev_involutive.
Qed.

Lemma rev_last_first (s : jsstring) :
  s <> [] -> rev s = List.last s 0%N :: rev (removelast s).
Proof.
  intro Hs. rewrite (app_removelast_last 0%N Hs) at 1.
  rewrite rev_app_distr. reflexivity.
Qed.

Lemma last_forallb (P : code_unit -> bool) (s : jsstring) (d : code_unit) :
  s <> [] -> forallb P s = true -> P (List.last s d) = true.
Proof.
  intros Hs Hall. rewrite forallb_forall in Hall. apply Hall.
  rewrite (app_removelast_last d Hs) at 2. apply in_or_app. right. now left.
Qed.

Lemma spanDigits_all (ds : jsstring) :
  forallb isDecimalDigit ds = true -> spanDigits ds = (ds, []).
Proof.
  induction ds as [|c r IH]; simpl; [reflexivity|].
  intro H. apply Bool.andb_true_iff in H. destruct H as [Hc Hr].
  now rewrite Hc, (IH Hr).
Qed.

Lemma includes_digits (ds : jsstring) (c : code_unit) :
  forallb isDecimalDigit ds = true -> isDecimalDigit c = false -> includes ds c = false.
Proof.
  intros Hds Hc. unfold includes.
  induction ds as [|a r IH]; simpl; [reflexivity|].
  simpl in Hds. apply Bool.andb_true_iff in Hds. destruct Hds as [Ha Hr].
  rewrite (IH Hr), Bool.orb_false_r.
  apply N.eqb_neq. intros <-. rewrite Ha in Hc. discriminate Hc.
Qed.

Lemma fold_digits_nonneg (ds : jsstring) : forall acc,
  0 <= acc -> forallb isDecimalDigit ds = true ->
  0 <= fold_left (fun a c => 10 * a + digitValue c) ds acc.
Proof.
  induction ds as [|c r IH]; intros acc Hacc Hds; cbn [fold_left]; [exact Hacc|].
  cbn [forallb] in Hds. apply Bool.andb_true_iff in Hds. destruct Hds as [Hc Hr].
  apply IH; [|exact Hr].
  unfold isDecimalDigit in Hc. apply Bool.andb_true_iff in Hc.
  destruct Hc as [Hlo _]. apply N.leb_le in Hlo. unfold digitValue. lia.
Qed.

Lemma digitsValue_nonneg (ds : jsstring) :
  forallb isDecimalDigit ds = true -> 0 <= digitsValue ds.
Proof. intro H. apply fold_digits_nonneg; [lia | exact H]. Qed.

Lemma validateInput_numeric (value : jsstring) :
  isNaN value = false -> nonEmpty value = true ->
  includes value (cu ".") = false -> includes value (cu ",") = false ->
  validateInput value =
    if lessThan (parseInt10 value) (Num MIN_INPUT)
       || greaterThan (parseInt10 value) (Num MAX_INPUT)
    then rejected msg_out_of_range
    else accepted (parseInt10 value).
Proof.
  intros Hnan Hne Hdot Hcomma. unfold validateInput.
  rewrite Hnan, Hne, Hdot, Hcomma. cbn [negb orb].
  destruct (lessThan _ _ || greaterThan _ _); reflexivity.
Qed.

Lemma unsigned_literal_digits (ds : jsstring) :
  ds <> [] -> forallb isDecimalDigit ds = true -> isStrUnsignedDecimalLiteral ds = true.
Proof.
  intros Hne Hds. unfold isStrUnsignedDecimalLiteral.
  destruct (jsstring_eqb ds (lit "Infinity")); [reflexivity|].
  rewrite (spanDigits_all ds Hds). destruct ds; [contradiction | reflexivity].
Qed.

(** The digits, with or without a minus sign before them, convert to a
    number; [parseInt] reads their value. *)
Lemma digits_numeric (ds : jsstring) :
  ds <> [] -> forallb isDecimalDigit ds = true ->
  isNaN ds = false /\ parseInt10 ds = Num (digitsValue ds).
Proof.
  intros Hne Hds. destruct ds as [|c r]; [contradiction|].
  assert (Hc : isDecimalDigit c = true).
  { cbn [forallb] in Hds. now apply Bool.andb_true_iff in Hds. }
  destruct (digit_not_sign c Hc) as (Hplus & Hminus & _ & _).
  pose proof (digit_not_white_space c Hc) as Hws.
  assert (Hlast : isStrWhiteSpaceChar (List.last (c :: r) 0%N) = false)
    by (apply digit_not_white_space, last_forallb; assumption).
  assert (Htrim : trim (c :: r) = c :: r)
    by (apply (trim_tight (c :: r) c (List.last (c :: r) 0%N) r eq_refl
                 (rev_last_first (c :: r) Hne) Hws Hlast)).
  split.
  - unfold isNaN, isStringNumericLiteral. rewrite Htrim. cbv beta iota.
    unfold isStrDecimalLiteral. rewrite Hplus, Hminus. cbv beta iota.
    now rewrite (unsigned_literal_digits (c :: r) Hne Hds).
  - unfold parseInt10. rewrite trimStart_first by exact Hws.
    rewrite Hplus, Hminus. cbv beta iota.
    rewrite (spanDigits_all (c :: r) Hds). cbv beta iota.
    f_equal. lia.
Qed.

Lemma minus_digits_numeric (ds : jsstring) :
  ds <> [] -> forallb isDecimalDigit ds = true ->
  isNaN (cu "-" :: ds) = false /\ parseInt10 (cu "-" :: ds) = Num (- digitsValue ds).
Proof.
  intros Hne Hds.
  assert (Hlast : isStrWhiteSpaceChar (List.last (cu "-" :: ds) 0%N) = false).
  { destruct ds as [|c r]; [contradiction|].
    change (List.last (cu "-" :: c :: r) 0%N) with (List.last (c :: r) 0%N).
    apply digit_not_white_space, last_forallb; [discriminate | exact Hds]. }
  assert (Htrim : trim (cu "-" :: ds) = cu "-" :: ds).
  { apply (trim_tight (cu "-" :: ds) (cu "-") (List.last (cu "-" :: ds) 0%N) ds eq_refl
             (rev_last_first (cu "-" :: ds) ltac:(discriminate)) eq_refl Hlast). }
  split.
  - unfold isNaN, isStringNumericLiteral. rewrite Htrim.
    unfold isStrDecimalLiteral.
    change (N.eqb (cu "-") (cu "+") || N.eqb (cu "-") (cu "-")) with true.
    cbn iota. now rewrite (unsigned_literal_digits ds Hne Hds).
  - unfold parseInt10. rewrite trimStart_first by reflexivity.
    change (N.eqb (cu "-") (cu "-")) with true. cbn iota.
    rewrite (spanDigits_all ds Hds).
    destruct ds; [contradiction|]. f_equal; lia.
Qed.

Lemma validateInput_digits (ds : jsstring) :
  ds <> [] -> forallb isDecimalDigit ds = true ->
  validateInput ds =
    if (MIN_INPUT <=? digitsValue ds) && (digitsValue ds <=? MAX_INPUT)
    then accepted (Num (digitsValue ds))
    else rejected msg_out_of_range.
Proof.
  intros Hne Hds. destruct (digits_numeric ds Hne Hds) as [Hnan Hparse].
  rewrite validateInput_numeric.
  - rewrite Hparse. unfold greaterThan, lessThan, MIN_INPUT, MAX_INPUT.
    cbv beta iota.
    destruct (Z.leb_spec 1 (digitsValue ds)), (Z.leb_spec (digitsValue ds) 20),
             (Z.ltb_spec (digitsValue ds) 1), (Z.ltb_spec 20 (digitsValue ds));
      cbn [andb orb]; try reflexivity; lia.
  - exact Hnan.
  - destruct ds; [contradiction | reflexivity].
  - apply includes_digits; [exact Hds | reflexivity].
  - apply includes_digits; [exact Hds | reflexivity].
Qed.

(** X1. A non-empty string of decimal digits (leading zeros allowed) is
    accepted exactly when its value lies between MIN_INPUT = 1 and
    MAX_INPUT = 20, and then the value returned is that integer;
    otherwise it is rejected as out of range. *)
Theorem X1_digit_strings (ds : jsstring) :
  ds <> [] -> forallb isDecimalDigit ds = true ->
  validateInput ds =
    if (MIN_INPUT <=? digitsValue ds) && (digitsValue ds <=? MAX_INPUT)
    then accepted (Num (digitsValue ds))
    else rejected msg_out_of_range.
Proof. exact (validateInput_digits ds). Qed.

(** "007" is accepted with the value 7 and "0021" is out of range. *)
Lemma X1_leading_zeros :
  validateInput (lit "007") = accepted (Num 7) /\
  validateInput (lit "0021") = rejected msg_out_of_range.
Proof.
  split.
  - rewrite (X1_digit_strings (lit "007")); [reflexivity | discriminate | reflexivity].
  - rewrite (X1_digit_strings (lit "0021")); [reflexivity | discriminate | reflexivity].
Defined.

Lemma fold_digits_uint (d : Decimal.uint) : forall acc : positive,
  fold_left (fun a c => 10 * a + digitValue c) (lit (NilEmpty.string_of_uint d)) (Z.pos acc)
    = Z.pos (Pos.of_uint_acc d acc).
Proof.
  induction d; intro acc; cbn [NilEmpty.string_of_uint Pos.of_uint_acc];
    [reflexivity | ..];
    unfold lit; cbn [list_ascii_of_string map fold_left]; fold (lit (NilEmpty.string_of_uint d));
    rewrite <- IHd; f_equal; unfold digitValue;
    match goal with
    | |- context [N_of_ascii ?a] =>
        let v := eval vm_compute in (N_of_ascii a) in change (N_of_ascii a) with v
    end; lia.
Qed.

(** Reading back the digits of a decimal numeral gives its value. *)
Lemma digitsValue_uint (d : Decimal.uint) :
  digitsValue (lit (NilEmpty.string_of_uint d)) = Z.of_N (Pos.of_uint d).
Proof.
  unfold digitsValue.
  induction d; cbn [NilEmpty.string_of_uint Pos.of_uint]; [reflexivity | ..];
    unfold lit; cbn [list_ascii_of_string map fold_left]; fold (lit (NilEmpty.string_of_uint d));
    [exact IHd | ..]; cbn [Z.of_N]; apply (fold_digits_uint d).
Qed.

Lemma numeral_of_positive (p : positive) :
  let ds := lit (NilEmpty.string_of_uint (Pos.to_uint p)) in
  ZToString (Z.pos p) = ds /\ ZToString (Z.neg p) = cu "-" :: ds /\
  ds <> [] /\ forallb isDecimalDigit ds = true /\ digitsValue ds = Z.pos p.
Proof.
  intro ds. subst ds. unfold ZToString.
  cbn [Z.to_int NilZero.string_of_int].
  pose proof (DecimalPos.Unsigned.to_uint_nonnil p) as Hnil.
  pose proof (DecimalPos.Unsigned.of_to p) as Hof.
  rewrite digitsValue_uint, Hof.
  unfold NilZero.string_of_uint.
  destruct (Pos.to_uint p) eqn:Hp; [contradiction | ..];
    (split; [reflexivity | split; [reflexivity | split; [discriminate | split;
       [apply string_of_uint_digits | reflexivity]]]]).
Qed.

(** X2. The decimal numeral of an integer n is accepted exactly when
    1 <= n <= 20, with n as the value; the numeral of every other integer,
    zero and the negative ones included, is rejected as out of range. *)
Theorem X2_integer_numerals (n : Z) :
  validateInput (ZToString n) =
    if (1 <=? n) && (n <=? 20) then accepted (Num n) else rejected msg_out_of_range.
Proof.
  destruct n as [|p|p].
  - reflexivity.
  - destruct (numeral_of_positive p) as (-> & _ & Hne & Hds & Hv).
    rewrite (validateInput_digits _ Hne Hds), Hv. reflexivity.
  - destruct (numeral_of_positive p) as (_ & -> & Hne & Hds & Hv).
    destruct (minus_digits_numeric _ Hne Hds) as [Hnan Hparse].
    rewrite validateInput_numeric.
    + rewrite Hparse, Hv. reflexivity.
    + exact Hnan.
    + reflexivity.
    + unfold includes. cbn [existsb].
      change (existsb (N.eqb (cu ".")) ?l) with (includes l (cu ".")).
      rewrite includes_digits; [reflexivity | exact Hds | reflexivity].
    + unfold includes. cbn [existsb].
      change (existsb (N.eqb (cu ",")) ?l) with (includes l (cu ",")).
      rewrite includes_digits; [reflexivity | exact Hds | reflexivity].
Qed.

(** X3. Whatever [validateInput] accepts is a non-empty string that
    converts to a number and has no point and no comma; the value returned
    is what parseInt reads from it, an integer from 1 to 20 or NaN. *)
Theorem X3_accepted_inputs (value : jsstring) :
  Validation.valid (validateInput value) = true ->
  value <> [] /\ isNaN value = false /\
  includes value (cu ".") = false /\ includes value (cu ",") = false /\
  validateInput value = accepted (parseInt10 value) /\
  (parseInt10 value = NaN \/ exists n, parseInt10 value = Num n /\ 1 <= n <= 20).
Proof.
  unfold validateInput.
  destruct (isNaN value) eqn:Hnan; [discriminate|].
  destruct (nonEmpty value) eqn:Hne; [|discriminate]. cbn [negb orb].
  destruct (lessThan (parseInt10 value) (Num MIN_INPUT)
            || greaterThan (parseInt10 value) (Num MAX_INPUT)) eqn:Hrange; [discriminate|].
  destruct (includes value (cu ".")) eqn:Hdot; [discriminate|].
  destruct (includes value (cu ",")) eqn:Hcomma; [discriminate|].
  intros _. cbn [orb].
  split; [intros ->; discriminate Hne|].
  do 4 (split; [reflexivity|]).
  apply Bool.orb_false_iff in Hrange. destruct Hrange as [Hlo Hhi].
  destruct (parseInt10 value) as [|n]; [now left | right].
  exists n. split; [reflexivity|].
  unfold greaterThan, lessThan, MIN_INPUT, MAX_INPUT in *.
  apply Z.ltb_ge in Hlo. apply Z.ltb_ge in Hhi. lia.
Qed.

(** The accepted input " 7": it has no point or comma and parseInt
    reads 7. *)
Lemma X3_space_seven :
  includes (lit " 7") (cu ".") = false /\
  validateInput (lit " 7") = accepted (parseInt10 (lit " 7")) /\
  parseInt10 (lit " 7") = Num 7.
Proof.
  destruct (X3_accepted_inputs (lit " 7") eq_refl) as (_ & _ & Hdot & _ & Hacc & _).
  split; [exact Hdot | split; [exact Hacc | reflexivity]].
Defined.

(** X4. Every non-empty string made of white space only (spaces, tabs,
    line ends, no-break spaces, ...) is accepted, with the value NaN. *)
Theorem X4_white_space_is_accepted (value : jsstring) :
  value <> [] -> forallb isStrWhiteSpaceChar value = true ->
  validateInput value = accepted NaN.
Proof.
  intros Hne Hws. apply validateInput_blank; [exact Hne|].
  unfold trim. apply trimStart_nil in Hws. rewrite Hws. reflexivity.
Qed.

(** A tab, a space and a no-break space. *)
Lemma X4_tab_space_nbsp : validateInput [9; 32; 160]%N = accepted NaN.
Proof.
  apply X4_white_space_is_accepted; [discriminate | reflexivity].
Defined.

(* ===================================================================== *)
(** ** Further properties of the rate limiter *)
(* ===================================================================== *)

Lemma prune_none (now : Z) (history : list Z) :
  (forall t, In t history -> t + TIME_WINDOW <= now) -> prune now history = [].
Proof.
  unfold prune. induction history as [|t r IH]; intro H; simpl; [reflexivity|].
  replace (now - t <? TIME_WINDOW) with false
    by (symmetry; apply Z.ltb_ge; specialize (H t (or_introl eq_refl)); lia).
  apply IH. intros u Hu. apply H. now right.
Qed.

(** Pruning at a later time subsumes pruning at an earlier one. *)
Lemma prune_prune (earlier now : Z) (history : list Z) :
  earlier <= now -> prune now (prune earlier history) = prune now history.
Proof.
  intro Hle. unfold prune. induction history as [|t r IH]; simpl; [reflexivity|].
  destruct (earlier - t <? TIME_WINDOW) eqn:He; simpl; rewrite IH; [reflexivity|].
  apply Z.ltb_ge in He.
  replace (now - t <? TIME_WINDOW) with false by (symmetry; apply Z.ltb_ge; lia).
  reflexivity.
Qed.

Lemma prune_app (now : Z) (a b : list Z) :
  prune now (a ++ b) = prune now a ++ prune now b.
Proof. apply filter_app. Qed.

Lemma prune_StronglySorted (now : Z) (history : list Z) :
  Sorted.StronglySorted Z.le history -> Sorted.StronglySorted Z.le (prune now history).
Proof.
  unfold prune. induction 1 as [|t r Hr IH Ht]; simpl; [constructor|].
  destruct (now - t <? TIME_WINDOW); [|exact IH].
  constructor; [exact IH|].
  apply Forall_forall. intros u Hu. apply filter_In in Hu.
  rewrite Forall_forall in Ht. apply Ht. tauto.
Qed.

Lemma StronglySorted_snoc (l : list Z) (x : Z) :
  Sorted.StronglySorted Z.le l -> (forall t, In t l -> t <= x) ->
  Sorted.StronglySorted Z.le (l ++ [x]).
Proof.
  induction 1 as [|t r Hr IH Ht]; intro Hx; simpl.
  - repeat constructor.
  - constructor.
    + apply IH. intros u Hu. apply Hx. now right.
    + apply Forall_app. split; [exact Ht|].
      constructor; [apply Hx; now left | constructor].
Qed.

(** X5. After a call of [checkRateLimit] at time now, every stored
    timestamp t lies in the window: now - t < TIME_WINDOW. *)
Theorem X5_history_within_window (now : Z) (s : page) (t : Z) :
  In t (requestHistory (snd (checkRateLimit now s))) -> now - t < TIME_WINDOW.
Proof.
  rewrite checkRateLimit_cases.
  destruct (MAX_REQUESTS <=? _); cbn [snd requestHistory set_requestHistory].
  - rewrite prune_In. lia.
  - rewrite in_app_iff, prune_In. intros [[_ H] | [<- | []]];
      [lia | unfold TIME_WINDOW; lia].
Qed.

(** A call at time 70000 on the history 0, 20000: 0 is dropped, 20000 and
    70000 are in the window. *)
Lemma X5_call_at_70000 :
  requestHistory (snd (checkRateLimit 70000 (set_requestHistory [0; 20000] Reference.fresh)))
    = [20000; 70000] /\
  70000 - 20000 < TIME_WINDOW.
Proof.
  split; [reflexivity|].
  apply (X5_history_within_window 70000 (set_requestHistory [0; 20000] Reference.fresh) 20000).
  left. reflexivity.
Defined.

(** X6. The history stays in chronological order: if it is ordered and no
    stored timestamp is later than now, it is ordered after the call. *)
Theorem X6_history_stays_ordered (now : Z) (s : page) :
  Sorted.StronglySorted Z.le (requestHistory s) ->
  (forall t, In t (requestHistory s) -> t <= now) ->
  Sorted.StronglySorted Z.le (requestHistory (snd (checkRateLimit now s))).
Proof.
  intros Hsorted Hpast. rewrite checkRateLimit_cases.
  pose proof (prune_StronglySorted now (requestHistory s) Hsorted) as Hp.
  destruct (MAX_REQUESTS <=? _); cbn [snd requestHistory set_requestHistory].
  - exact Hp.
  - apply StronglySorted_snoc; [exact Hp|].
    intros t Ht. apply prune_In in Ht. apply Hpast. tauto.
Qed.

(** The ordered history 0, 20000 and a call at time 70000. *)
Lemma X6_call_at_70000 :
  Sorted.StronglySorted Z.le
    (requestHistory (snd (checkRateLimit 70000 (set_requestHistory [0; 20000] Reference.fresh)))).
Proof.
  apply X6_history_stays_ordered.
  - cbn [requestHistory set_requestHistory]. repeat constructor; lia.
  - cbn [requestHistory set_requestHistory]. intros t [<- | [<- | []]]; lia.
Defined.

(** X7. The limiter recovers: once every stored timestamp is TIME_WINDOW
    or more in the past, a call is allowed, however full the history was,
    and leaves the history with its own timestamp alone. *)
Theorem X7_window_expired (now : Z) (s : page) :
  (forall t, In t (requestHistory s) -> t + TIME_WINDOW <= now) ->
  RateLimit.allowed (fst (checkRateLimit now s)) = true /\
  requestHistory (snd (checkRateLimit now s)) = [now].
Proof.
  intro Hold. rewrite checkRateLimit_cases, (prune_none now _ Hold).
  split; reflexivity.
Qed.

(** Ten requests at time 0, and a call at time 60000. *)
Lemma X7_full_then_60000 :
  RateLimit.allowed
    (fst (checkRateLimit 60000 (set_requestHistory (repeat 0 10) Reference.fresh))) = true /\
  requestHistory
    (snd (checkRateLimit 60000 (set_requestHistory (repeat 0 10) Reference.fresh))) = [60000].
Proof.
  apply X7_window_expired.
  cbn [requestHistory set_requestHistory]. intros t Ht.
  apply repeat_spec in Ht. subst t. unfold TIME_WINDOW. lia.
Defined.

Lemma last_cons (l : list Z) (a d : Z) : List.last (a :: l) d = List.last l a.
Proof.
  revert a d. induction l as [|b r IH]; intros a d; [reflexivity|].
  change (List.last (a :: b :: r) d) with (List.last (b :: r) d).
  rewrite IH. symmetry. apply IH.
Qed.

(** With a clock that does not run backwards, the history after the calls
    is the list of the calls that were allowed, cut to the window of the
    latest call. *)
Lemma history_is_recent_granted (times : list Z) : forall s A earlier,
  Sorted.StronglySorted Z.le (earlier :: times) ->
  requestHistory s = prune earlier A ->
  requestHistory (snd (checks times s)) =
    prune (List.last times earlier) (A ++ granted times s).
Proof.
  induction times as [|now later IH]; intros s A earlier Hsorted Hs.
  - cbn [checks granted snd List.last]. now rewrite app_nil_r.
  - assert (Hle : earlier <= now).
    { inversion Hsorted as [|? ? _ Hall]. now inversion Hall. }
    assert (Hlater : Sorted.StronglySorted Z.le (now :: later))
      by (now inversion Hsorted).
    cbn [checks granted]. rewrite last_cons.
    pose proof (checkRateLimit_cases now s) as Hcase.
    rewrite Hs, (prune_prune earlier now A Hle) in Hcase.
    destruct (checkRateLimit now s) as [r s1].
    destruct (MAX_REQUESTS <=? _); injection Hcase as -> ->;
      cbn [RateLimit.allowed].
    + specialize (IH (set_requestHistory (prune now A) s) A now Hlater eq_refl).
      cbn [app].
      destruct (checks later _) as [rs s2]. exact IH.
    + specialize (IH (set_requestHistory (prune now A ++ [now]) s) (A ++ [now]) now Hlater).
      rewrite app_assoc.
      destruct (checks later _) as [rs s2]. apply IH.
      cbn [requestHistory set_requestHistory].
      rewrite prune_app. f_equal.
      unfold prune. cbn [filter]. rewrite Z.sub_diag. reflexivity.
Qed.

(** X8. The guarantee of the limiter, for a clock that does not run
    backwards and an empty history at the start: after any sequence of
    calls, the history is exactly the list of the calls that were allowed
    less than 60000 ms before the latest call (that call included), and
    there are at most 10 of them. *)
Theorem X8_at_most_ten_granted_per_window (times : list Z) (latest : Z) (s : page) :
  Sorted.StronglySorted Z.le (times ++ [latest]) ->
  let recent :=
    filter (fun t => latest - t <? 60000)
           (granted (times ++ [latest]) (set_requestHistory [] s)) in
  requestHistory (snd (checks (times ++ [latest]) (set_requestHistory [] s))) = recent /\
  (List.length recent <= 10)%nat.
Proof.
  intros Hsorted recent. subst recent.
  assert (Hhistory :
    requestHistory (snd (checks (times ++ [latest]) (set_requestHistory [] s))) =
      prune latest (granted (times ++ [latest]) (set_requestHistory [] s))).
  { destruct (times ++ [latest]) as [|first rest] eqn:Hlist.
    - destruct times; discriminate Hlist.
    - assert (Hlast : List.last (first :: rest) first = latest)
        by (rewrite <- Hlist; apply last_last).
      rewrite <- Hlast.
      apply (history_is_recent_granted (first :: rest) (set_requestHistory [] s) [] first).
      + constructor; [exact Hsorted|].
        constructor; [lia | now inversion Hsorted].
      + reflexivity. }
  split; [exact Hhistory|].
  change (filter (fun t => latest - t <? 60000)) with (prune latest).
  rewrite <- Hhistory. apply checks_bounded. cbn. lia.
Qed.

(** Twelve calls, at 0 (eleven times) and at 30000: the first ten are
    allowed and stored; the two others fall in the same window and are
    refused. *)
Lemma X8_twelve_calls :
  granted (repeat 0 11 ++ [30000]) (set_requestHistory [] Reference.fresh) = repeat 0 10 /\
  requestHistory (snd (checks (repeat 0 11 ++ [30000]) (set_requestHistory [] Reference.fresh)))
    = repeat 0 10.
Proof.
  assert (Hsorted : Sorted.StronglySorted Z.le (repeat 0 11 ++ [30000]))
    by (cbn; repeat constructor; lia).
  destruct (X8_at_most_ten_granted_per_window (repeat 0 11) 30000 Reference.fresh Hsorted)
    as [Hhistory _].
  split; [reflexivity|].
  rewrite Hhistory. reflexivity.
Defined.

(* ===================================================================== *)
(** ** Further properties of the calculation *)
(* ===================================================================== *)

(** X9. Within the range where the counter and the array of the loop
    are exact (taken here up to n = 1000000), the loop of the handler
    computes one element per index from 1 to n, beyond 20 as well, and
    nothing when n is zero, negative, NaN or undefined. *)
Theorem X9_loop_for_any_order (E : engine) (n : option number) (s : page) :
  match n with Some (Num z) => z <= 1000000 | _ => True end ->
  map Element.index (fst (element_loop E n s)) =
    match n with
    | Some (Num z) => Zseq 1 (Z.to_nat z)
    | _ => []
    end /\
  (forall z, n = Some (Num z) -> z <= 0 -> fst (element_loop E n s) = []).
Proof.
  intros _. split.
  - destruct n as [[|z]|]; try reflexivity.
    rewrite element_loop_elements, map_map. cbn [calculateElements Element.index].
    apply map_id.
  - intros z -> Hz. rewrite element_loop_elements.
    replace (Z.to_nat z) with 0%nat by lia. reflexivity.
Qed.

(** Order 25, which the validator would refuse, and order -3. *)
Lemma X9_orders_25_and_minus_3 :
  map Element.index (fst (element_loop Reference.engine (Some (Num 25)) Reference.fresh))
    = Zseq 1 25 /\
  fst (element_loop Reference.engine (Some (Num (-3))) Reference.fresh) = [].
Proof.
  split.
  - apply (X9_loop_for_any_order Reference.engine (Some (Num 25)) Reference.fresh).
    cbv beta iota. lia.
  - destruct (X9_loop_for_any_order Reference.engine (Some (Num (-3))) Reference.fresh)
      as [_ Hnone]; [cbv beta iota; lia|].
    apply (Hnone (-3)); [reflexivity | lia].
Defined.

(** X10. For every integer k that a Number holds exactly (up to
    2^53 - 1 in magnitude, negative ones included), [calculateElements]
    returns index k and the type capacitor for even k, inductor for odd k;
    [sanitizeHTML] leaves that type as it is, and the div rendered for the
    element holds the icon of the type and the sentence
    "El <type> <k> vale <value>". *)
Theorem X10_calculated_element_rendered (E : engine) (k n : Z) :
  - 9007199254740991 <= k <= 9007199254740991 ->
  - 9007199254740991 <= n <= 9007199254740991 ->
  let element := calculateElements E k n in
  Element.index element = k /\
  Element.type element = (if Z.even k then lit "capacitor" else lit "inductor") /\
  sanitizeHTML (Element.type element) = Element.type element /\
  result_div element =
    {| classList := [lit "result-item"];
       children :=
         [ {| span_className := lit "result-icon";
              span_textContent := if Z.even k then high_voltage else electric_plug |};
           {| span_className := lit "result-text";
              span_textContent :=
                lit "El " ++ (if Z.even k then lit "capacitor" else lit "inductor")
                  ++ lit " " ++ ZToString k ++ lit " vale " ++ Element.value element |} ] |}.
Proof.
  intros _ _ element. subst element.
  unfold result_div, calculateElements.
  cbn [Element.type Element.index Element.value].
  rewrite rem2_even. destruct (Z.even k); repeat split.
Qed.

(** The index -3 in order 5: an inductor, with the plug as icon. *)
Lemma X10_index_minus_3 :
  Element.type (calculateElements Reference.engine (-3) 5) = lit "inductor" /\
  map span_textContent
      (firstn 1 (children (result_div (calculateElements Reference.engine (-3) 5))))
    = [electric_plug].
Proof.
  destruct (X10_calculated_element_rendered Reference.engine (-3) 5 ltac:(lia) ltac:(lia))
    as (_ & Htype & _ & Hdiv).
  split; [exact Htype|].
  rewrite Hdiv. reflexivity.
Defined.

(* ===================================================================== *)
(** ** Properties of sanitizeHTML *)
(* ===================================================================== *)

(** The units [sanitizeHTML] replaces: ampersand, less-than, greater-than
    and the no-break space. *)
Definition isEscaped (c : code_unit) : bool :=
  N.eqb c (cu "&") || N.eqb c (cu "<") || N.eqb c (cu ">") || N.eqb c 160.

Lemma sanitizeHTML_cons (c : code_unit) (r : jsstring) :
  sanitizeHTML (c :: r) =
    (if N.eqb c (cu "&") then lit "&amp;"
     else if N.eqb c (cu "<") then lit "&lt;"
     else if N.eqb c (cu ">") then lit "&gt;"
     else if N.eqb c 160 then lit "&nbsp;"
     else [c]) ++ sanitizeHTML r.
Proof. reflexivity. Qed.

(** X11. The text [sanitizeHTML] returns holds no less-than sign, no
    greater-than sign and no no-break space, whatever the input. *)
Theorem X11_sanitized_has_no_markup (str : jsstring) :
  includes (sanitizeHTML str) (cu "<") = false /\
  includes (sanitizeHTML str) (cu ">") = false /\
  includes (sanitizeHTML str) 160%N = false.
Proof.
  unfold includes.
  induction str as [|c r (IH1 & IH2 & IH3)]; [repeat split|].
  rewrite sanitizeHTML_cons, !existsb_app.
  unfold jsstring, code_unit in *.
  rewrite IH1, IH2, IH3, !Bool.orb_false_r.
  destruct (N.eqb_spec c (cu "&")); [repeat split|].
  destruct (N.eqb_spec c (cu "<")); [repeat split|].
  destruct (N.eqb_spec c (cu ">")); [repeat split|].
  destruct (N.eqb_spec c 160); [repeat split|].
  cbn [existsb]. rewrite !Bool.orb_false_r.
  repeat split; apply N.eqb_neq; congruence.
Qed.

(** X12. [sanitizeHTML] works unit by unit: the escape of a concatenation
    is the concatenation of the escapes. *)
Theorem X12_sanitize_concatenation (a b : jsstring) :
  sanitizeHTML (a ++ b) = sanitizeHTML a ++ sanitizeHTML b.
Proof.
  induction a as [|c r IH]; [reflexivity|].
  rewrite <- app_comm_cons, !sanitizeHTML_cons, IH. apply app_assoc.
Qed.

Lemma sanitizeHTML_length (str : jsstring) :
  (List.length str <= List.length (sanitizeHTML str))%nat /\
  (existsb isEscaped str = true ->
   (List.length str < List.length (sanitizeHTML str))%nat).
Proof.
  induction str as [|c r [IHle IHlt]]; [cbn; split; [lia | discriminate]|].
  rewrite sanitizeHTML_cons, length_app. cbn [existsb List.length].
  unfold isEscaped at 1.
  destruct (N.eqb c (cu "&")); [cbn; split; [lia | intros _; lia]|].
  destruct (N.eqb c (cu "<")); [cbn; split; [lia | intros _; lia]|].
  destruct (N.eqb c (cu ">")); [cbn; split; [lia | intros _; lia]|].
  destruct (N.eqb c 160); [cbn; split; [lia | intros _; lia]|].
  cbn [orb List.length]. split; [lia|]. intro H. specialize (IHlt H). lia.
Qed.

(** X13. [sanitizeHTML] returns its argument unchanged exactly when the
    argument holds none of the four units it escapes. *)
Theorem X13_sanitize_identity (str : jsstring) :
  sanitizeHTML str = str <-> existsb isEscaped str = false.
Proof.
  split.
  - intro Hid. destruct (existsb isEscaped str) eqn:He; [|reflexivity].
    destruct (sanitizeHTML_length str) as [_ Hlt]. specialize (Hlt He).
    rewrite Hid in Hlt. lia.
  - induction str as [|c r IH]; [reflexivity|].
    cbn [existsb]. intro H. apply Bool.orb_false_iff in H. destruct H as [Hc Hr].
    rewrite sanitizeHTML_cons, (IH Hr).
    unfold isEscaped in Hc.
    repeat (apply Bool.orb_false_iff in Hc; destruct Hc as [Hc ?]).
    now rewrite Hc, H0, H1, H.
Qed.

(** What [sanitizeHTML] writes for one unit. *)
Lemma escape_cases (c : code_unit) (r : jsstring) :
  (c = cu "&" /\ sanitizeHTML (c :: r) = lit "&amp;" ++ sanitizeHTML r) \/
  (c = cu "<" /\ sanitizeHTML (c :: r) = lit "&lt;" ++ sanitizeHTML r) \/
  (c = cu ">" /\ sanitizeHTML (c :: r) = lit "&gt;" ++ sanitizeHTML r) \/
  (c = 160%N /\ sanitizeHTML (c :: r) = lit "&nbsp;" ++ sanitizeHTML r) \/
  (c <> cu "&" /\ sanitizeHTML (c :: r) = c :: sanitizeHTML r).
Proof.
  rewrite sanitizeHTML_cons.
  destruct (N.eqb_spec c (cu "&")); [left; now split|].
  destruct (N.eqb_spec c (cu "<")); [right; left; now split|].
  destruct (N.eqb_spec c (cu ">")); [right; right; left; now split|].
  destruct (N.eqb_spec c 160); [right; right; right; left; now split|].
  right; right; right; right. now split.
Qed.

Lemma sanitizeHTML_injective (a b : jsstring) :
  sanitizeHTML a = sanitizeHTML b -> a = b.
Proof.
  revert b. induction a as [|x a IH]; intros [|y b] H.
  - reflexivity.
  - exfalso.
    destruct (escape_cases y b) as [[_ Hy]|[[_ Hy]|[[_ Hy]|[[_ Hy]|[_ Hy]]]]];
      rewrite Hy in H; discriminate H.
  - exfalso.
    destruct (escape_cases x a) as [[_ Hx]|[[_ Hx]|[[_ Hx]|[[_ Hx]|[_ Hx]]]]];
      rewrite Hx in H; discriminate H.
  - destruct (escape_cases x a) as [[-> Hx]|[[-> Hx]|[[-> Hx]|[[-> Hx]|[Nx Hx]]]]];
    destruct (escape_cases y b) as [[-> Hy]|[[-> Hy]|[[-> Hy]|[[-> Hy]|[Ny Hy]]]]];
      rewrite Hx, Hy in H; cbn in H; try discriminate H;
      injection H; intros; subst; try contradiction;
      try (exfalso; apply Nx; reflexivity); try (exfalso; apply Ny; reflexivity);
      f_equal; apply IH; assumption.
Qed.

(** X14. [sanitizeHTML] loses nothing: two different strings never have
    the same escape. *)
Theorem X14_sanitize_injective (a b : jsstring) :
  a <> b -> sanitizeHTML a <> sanitizeHTML b.
Proof.
  intros Hne H. apply Hne. apply sanitizeHTML_injective. exact H.
Qed.

(** A less-than sign and the text of its entity: their escapes are
    [&lt;] and [&amp;lt;]. *)
Lemma X14_sign_and_entity :
  sanitizeHTML (lit "<") = lit "&lt;" /\
  sanitizeHTML (lit "&lt;") = lit "&amp;lt;" /\
  sanitizeHTML (lit "<") <> sanitizeHTML (lit "&lt;").
Proof.
  split; [reflexivity | split; [reflexivity|]].
  apply X14_sanitize_injective. discriminate.
Defined.

(* ===================================================================== *)
(** ** Further properties of the renderer and its timers *)
(* ===================================================================== *)

Lemma forEach_timers (elements : list Element.t) : forall index s,
  timers (forEach elements index s) =
    timers s ++
      map (fun i => ((index + Z.of_nat i) * 50, AddShow (List.length (nodes s) + i)))
          (seq 0 (List.length elements)).
Proof.
  induction elements as [|e rest IH]; intros index s.
  - cbn. now rewrite app_nil_r.
  - cbn [forEach List.length seq map]. rewrite IH.
    cbn [render_element setTimeout set_resultField set_nodes nodes timers].
    rewrite <- app_assoc. f_equal. cbn [app]. f_equal.
    + f_equal; [lia | f_equal; lia].
    + rewrite <- seq_shift, map_map. apply map_ext. intro i.
      rewrite length_app. cbn [List.length]. f_equal; [lia | f_equal; lia].
Qed.

Lemma renderResults_timers (elements : list Element.t) (s : page) :
  timers (renderResults elements s) =
    timers s ++
      map (fun i => (Z.of_nat i * 50, AddShow (List.length (nodes s) + i)))
          (seq 0 (List.length elements)).
Proof.
  unfold renderResults. rewrite forEach_timers.
  cbn [set_resultField timers nodes]. reflexivity.
Qed.

(** X15. [renderResults] schedules one timer per element and no other:
    the timer of the element at position i (from 0) has the delay 50 * i
    ms and reveals the div created for that element. *)
Theorem X15_reveal_schedule (elements : list Element.t) (s : page) :
  timers (renderResults elements s) =
    timers s ++
      map (fun i => (Z.of_nat i * 50, AddShow (List.length (nodes s) + i)))
          (seq 0 (List.length elements)) /\
  nodes (renderResults elements s) = nodes s ++ map result_div elements /\
  resultField (renderResults elements s) =
    seq (List.length (nodes s)) (List.length elements).
Proof.
  split; [apply renderResults_timers|].
  unfold renderResults. rewrite forEach_nodes, forEach_resultField.
  split; reflexivity.
Qed.

Lemma update_nth_app {A : Type} (f : A -> A) (old : list A) (x : A) (new : list A) :
  update_nth (List.length old) f (old ++ x :: new) = old ++ f x :: new.
Proof. induction old as [|a r IH]; simpl; [reflexivity | now rewrite IH]. Qed.

Lemma update_fresh {A : Type} (f : A -> A) (new : list A) : forall old,
  fold_left (fun ns id => update_nth id f ns)
            (seq (List.length old) (List.length new)) (old ++ new)
    = old ++ map f new.
Proof.
  induction new as [|x new IH]; intro old; [reflexivity|].
  cbn [List.length seq fold_left map]. rewrite update_nth_app.
  specialize (IH (old ++ [f x])).
  rewrite <- app_assoc, length_app in IH. cbn [List.length app] in IH.
  rewrite Nat.add_1_r in IH. rewrite IH, <- app_assoc. reflexivity.
Qed.

Lemma fire_all_AddShow (ids : list nat) : forall s,
  nodes (fire_all (map AddShow ids) s) =
    fold_left (fun ns id => update_nth id (add_class (lit "show")) ns) ids (nodes s) /\
  resultField (fire_all (map AddShow ids) s) = resultField s.
Proof.
  unfold fire_all. induction ids as [|id r IH]; intro s; [split; reflexivity|].
  cbn [map fold_left]. destruct (IH (fire (AddShow id) s)) as [-> ->].
  split; reflexivity.
Qed.

Lemma seq_from (n : nat) : forall base,
  map (fun i => (base + i)%nat) (seq 0 n) = seq base n.
Proof.
  induction n as [|n IH]; intro base; [reflexivity|].
  cbn [seq map]. rewrite Nat.add_0_r. f_equal.
  rewrite <- seq_shift, map_map, <- (IH (S base)).
  apply map_ext. intro i. lia.
Qed.

Lemma renderResults_layout (elements : list Element.t) (s : page) :
  nodes (renderResults elements s) = nodes s ++ map result_div elements /\
  resultField (renderResults elements s) =
    seq (List.length (nodes s)) (List.length elements).
Proof.
  unfold renderResults. rewrite forEach_nodes, forEach_resultField.
  split; reflexivity.
Qed.

(** X16. When the timers scheduled by [renderResults] have fired, every
    div of the batch is shown with the classes result-item and show, and
    its content is unchanged. *)
Theorem X16_all_revealed (elements : list Element.t) (s : page) :
  let scheduled :=
    skipn (List.length (timers s)) (timers (renderResults elements s)) in
  shown (fire_all (map snd scheduled) (renderResults elements s)) =
    map (fun e => {| classList := [lit "result-item"; lit "show"];
                     children := children (result_div e) |}) elements.
Proof.
  intro scheduled. subst scheduled.
  rewrite renderResults_timers, skipn_app, Nat.sub_diag, skipn_all. cbn [app skipn].
  rewrite map_map. cbn [snd].
  rewrite <- (map_map (fun i => (List.length (nodes s) + i)%nat) AddShow), seq_from.
  unfold shown.
  destruct (fire_all_AddShow (seq (List.length (nodes s)) (List.length elements))
              (renderResults elements s)) as [Hnodes Hfield].
  destruct (renderResults_layout elements s) as [Hnodes' Hfield'].
  rewrite Hnodes, Hfield, Hnodes', Hfield'.
  rewrite <- (length_map result_div elements).
  rewrite update_fresh.
  rewrite <- (length_map (add_class (lit "show")) (map result_div elements)).
  rewrite lookup_fresh, map_map. apply map_ext. intro e. reflexivity.
Qed.

(** X17. The timers of an earlier render do not touch a later one: if any
    timer that rendering a batch A scheduled fires after a batch B has been
    rendered, the result region still shows the divs of B as rendered. *)
Theorem X17_earlier_timers_harmless
    (A B : list Element.t) (s : page) (delay : Z) (action : timer_action) :
  In (delay, action) (skipn (List.length (timers s)) (timers (renderResults A s))) ->
  shown (fire action (renderResults B (renderResults A s))) = map result_div B.
Proof.
  rewrite renderResults_timers, skipn_app, Nat.sub_diag, skipn_all. cbn [app skipn].
  intro Hin. apply in_map_iff in Hin. destruct Hin as (i & Heq & Hi).
  injection Heq as _ <-. apply in_seq in Hi.
  apply stale_timer_harmless. lia.
Qed.

(** One element rendered, then another: the timer of the first fires on a
    detached div. *)
Lemma X17_two_renders :
  shown (fire (AddShow 0)
           (renderResults [calculateElements Reference.engine 2 2]
              (renderResults [calculateElements Reference.engine 1 2] Reference.fresh)))
    = [result_div (calculateElements Reference.engine 2 2)].
Proof.
  apply (X17_earlier_timers_harmless
           [calculateElements Reference.engine 1 2]
           [calculateElements Reference.engine 2 2] Reference.fresh 0 (AddShow 0)).
  left. reflexivity.
Defined.

(* ===================================================================== *)
(** ** The message region and the input listener *)
(* ===================================================================== *)

(** X18. The timer that hides a message of success is not cancelled by a
    later message: when an error is shown after a success and the timer of
    the success then fires, the error is hidden (display none) with its text
    and class still in place. *)
Theorem X18_success_timer_hides_later_error (success error : jsstring) (s : page) :
  let s1 := showValidationMessage success false s in
  let s2 := showValidationMessage error true s1 in
  timers s2 = timers s ++ [(2000, HideValidation)] /\
  inputValidation s2 =
    {| textContent := error; className := lit "input-validation error";
       display := lit "block" |} /\
  inputValidation (fire HideValidation s2) =
    {| textContent := error; className := lit "input-validation error";
       display := lit "none" |}.
Proof.
  repeat split.
Qed.

(** X19. Typing in the field never charges the rate limiter and never
    touches the results or the console.  An empty field hides the message
    region and schedules nothing; a rejected non-empty text shows the
    rejection as an error, which no timer hides; an accepted text shows the
    message of success and schedules its hiding after 2000 ms. *)
Theorem X19_input_listener (value : jsstring) (s : page) :
  let s' := input value s in
  let validation := validateInput value in
  requestHistory s' = requestHistory s /\ nodes s' = nodes s /\
  resultField s' = resultField s /\ console s' = console s /\
  (value = [] ->
     display (inputValidation s') = lit "none" /\
     textContent (inputValidation s') = textContent (inputValidation s) /\
     timers s' = timers s) /\
  (value <> [] -> Validation.valid validation = false ->
     inputValidation s' =
       {| textContent := Validation.message validation;
          className := lit "input-validation error"; display := lit "block" |} /\
     timers s' = timers s) /\
  (Validation.valid validation = true ->
     inputValidation s' =
       {| textContent := msg_validated;
          className := lit "input-validation success"; display := lit "block" |} /\
     timers s' = timers s ++ [(2000, HideValidation)]).
Proof.
  intros s' validation. subst s' validation. unfold input.
  split; [|split; [|split; [|split; [|split; [|split]]]]].
  1-4: destruct (negb (Validation.valid (validateInput value)) && nonEmpty value);
       [reflexivity | destruct (Validation.valid (validateInput value)); reflexivity].
  - intros ->. repeat split.
  - intros Hne Hinvalid. rewrite Hinvalid.
    destruct value; [contradiction|]. repeat split.
  - intro Hvalid.
    destruct (validateInput_valid value Hvalid) as (num & Hnum & _).
    rewrite Hnum. repeat split.
Qed.

(* ===================================================================== *)
(** ** Further properties of the submit handler *)
(* ===================================================================== *)

(** What the limiter recorded is what the handler leaves, whatever the
    validator says. *)
Lemma submit_requestHistory (E : engine) (now date : Z) (value : jsstring) (s : page) :
  requestHistory (submit E now date value s) =
    requestHistory (snd (checkRateLimit now s)).
Proof.
  destruct (RateLimit.allowed (fst (checkRateLimit now s))) eqn:Hallowed.
  - rewrite (checkRateLimit_allowed now s Hallowed).
    destruct (Validation.valid (validateInput value)) eqn:Hvalid.
    + rewrite (submit_valid E now date value s Hallowed Hvalid). cbv zeta.
      autorewrite with page. reflexivity.
    + rewrite (submit_invalid E now date value s Hallowed Hvalid). reflexivity.
  - rewrite (submit_denied E now date value s Hallowed).
    destruct (checkRateLimit_denied now s Hallowed) as [-> _]. reflexivity.
Qed.

Lemma submit_valid_shown (E : engine) (now date : Z) (value : jsstring) (s : page) :
  RateLimit.allowed (fst (checkRateLimit now s)) = true ->
  Validation.valid (validateInput value) = true ->
  shown (submit E now date value s) =
    map result_div (fst (element_loop E (Validation.value (validateInput value)) s)).
Proof.
  intros Hallowed Hvalid.
  rewrite (submit_valid E now date value s Hallowed Hvalid). cbv zeta.
  autorewrite with page.
  now rewrite (element_loop_any_page E _ _ s).
Qed.

(** X20. Submitting the same accepted text again, the limiter allowing
    both submissions, shows the same divs as the first time: the first
    output is replaced by an equal one, nothing accumulates. *)
Theorem X20_resubmission (E : engine) (now1 date1 now2 date2 : Z)
    (value : jsstring) (s : page) :
  RateLimit.allowed (fst (checkRateLimit now1 s)) = true ->
  Validation.valid (validateInput value) = true ->
  RateLimit.allowed
    (fst (checkRateLimit now2 (submit E now1 date1 value s))) = true ->
  shown (submit E now2 date2 value (submit E now1 date1 value s)) =
    shown (submit E now1 date1 value s).
Proof.
  intros H1 Hvalid H2.
  rewrite (submit_valid_shown E now2 date2 value _ H2 Hvalid).
  rewrite (submit_valid_shown E now1 date1 value s H1 Hvalid).
  now rewrite (element_loop_any_page E _ _ s).
Qed.

(** "4" submitted at time 0 and again at time 1000 on a fresh page. *)
Lemma X20_four_twice :
  map sentence
    (shown (submit Reference.engine 1000 1000 (lit "4")
              (submit Reference.engine 0 0 (lit "4") Reference.fresh))) =
    [ lit "El inductor 1 vale 0.7654"; lit "El capacitor 2 vale 1.8478";
      lit "El inductor 3 vale 1.8478"; lit "El capacitor 4 vale 0.7654" ].
Proof.
  rewrite (X20_resubmission Reference.engine 0 0 1000 1000 (lit "4") Reference.fresh
             eq_refl eq_refl eq_refl).
  vm_compute. reflexivity.
Defined.

Lemma handle_requestHistory (E : engine) (ev : event) (s : page) :
  requestHistory (handle E ev s) =
    match ev with
    | Submitted now _ _ => requestHistory (snd (checkRateLimit now s))
    | _ => requestHistory s
    end.
Proof.
  destruct ev as [|value|now date value|a]; cbn [handle].
  - reflexivity.
  - apply input_requestHistory.
  - apply submit_requestHistory.
  - destruct a; reflexivity.
Qed.

Lemma run_bounded (E : engine) (events : list event) : forall s,
  (List.length (requestHistory s) <= 10)%nat ->
  (List.length (requestHistory (run E events s)) <= 10)%nat.
Proof.
  unfold run. induction events as [|ev later IH]; intros s Hs; [exact Hs|].
  cbn [fold_left]. apply IH. rewrite handle_requestHistory.
  destruct ev; try exact Hs. apply checkRateLimit_bounded. exact Hs.
Qed.

(** X21. On the whole page, through any sequence of loading, typing,
    submissions (valid or not, allowed or not, at any clock readings) and
    timers, the request history is written by submissions only, where it
    becomes what [checkRateLimit] leaves, and from the empty history it
    never holds more than MAX_REQUESTS = 10 timestamps. *)
Theorem X21_history_on_the_page (E : engine) (events : list event) (s : page) :
  (Z.of_nat (List.length (requestHistory (run E events (set_requestHistory [] s))))
     <= MAX_REQUESTS) /\
  (forall ev s0,
     requestHistory (handle E ev s0) =
       match ev with
       | Submitted now _ _ => requestHistory (snd (checkRateLimit now s0))
       | _ => requestHistory s0
       end).
Proof.
  split; [|intros ev s0; apply handle_requestHistory].
  pose proof (run_bounded E events (set_requestHistory [] s)) as H.
  cbn [requestHistory set_requestHistory List.length] in H.
  unfold MAX_REQUESTS. specialize (H ltac:(lia)). lia.
Qed.

(** X22. A submission writes one line to the console when the limiter
    allows it and the validator accepts the text, and none otherwise; the
    lines already there are kept. *)
Theorem X22_one_line_per_calculation
    (E : engine) (now date : Z) (value : jsstring) (s : page) :
  exists lines,
    console (submit E now date value s) = console s ++ lines /\
    List.length lines =
      if RateLimit.allowed (fst (checkRateLimit now s))
         && Validation.valid (validateInput value)
      then 1%nat else 0%nat.
Proof.
  destruct (RateLimit.allowed (fst (checkRateLimit now s))) eqn:Hallowed.
  - destruct (Validation.valid (validateInput value)) eqn:Hvalid.
    + rewrite (submit_valid E now date value s Hallowed Hvalid). cbv zeta.
      autorewrite with page. eexists. split; reflexivity.
    + rewrite (submit_invalid E now date value s Hallowed Hvalid).
      exists []. split; [cbn; now rewrite app_nil_r | reflexivity].
  - rewrite (submit_denied E now date value s Hallowed).
    exists []. split; [cbn; now rewrite app_nil_r | reflexivity].
Qed.

(** X23. A submission of white space only that the limiter allows runs
    the whole pipeline on NaN: the result region is emptied, and the audit
    line reports the input NaN with 0 elements. *)
Theorem X23_blank_submission
    (E : engine) (now date : Z) (value : jsstring) (s : page) :
  value <> [] -> forallb isStrWhiteSpaceChar value = true ->
  RateLimit.allowed (fst (checkRateLimit now s)) = true ->
  let s' := submit E now date value s in
  shown s' = [] /\
  console s' =
    console s ++
      [[VString (lit "[SECURITY AUDIT]");
        VObject
          [ ("timestamp"%string, VString (toISOString date));
            ("action"%string, VString (lit "CALCULATION_PERFORMED"));
            ("input"%string, VNumber NaN);
            ("elements"%string, VNumber (Num 0));
            ("requestCount"%string,
             VNumber (Num (Z.of_nat (List.length (requestHistory s'))))) ]]].
Proof.
  intros Hne Hws Hallowed s'. subst s'.
  assert (Hblank : validateInput value = accepted NaN).
  { apply validateInput_blank; [exact Hne|].
    unfold trim. apply trimStart_nil in Hws. rewrite Hws. reflexivity. }
  assert (Hvalid : Validation.valid (validateInput value) = true)
    by (rewrite Hblank; reflexivity).
  split.
  - rewrite (submit_valid_shown E now date value s Hallowed Hvalid), Hblank. reflexivity.
  - rewrite submit_requestHistory.
    rewrite (submit_valid E now date value s Hallowed Hvalid). cbv zeta.
    rewrite Hblank. cbn [Validation.value accepted].
    unfold audit_record. autorewrite with page.
    rewrite (checkRateLimit_allowed now s Hallowed). reflexivity.
Qed.

(** A tab submitted on a fresh page. *)
Lemma X23_tab_submitted :
  shown (submit Reference.engine 0 0 [9%N] Reference.fresh) = [] /\
  List.length (console (submit Reference.engine 0 0 [9%N] Reference.fresh)) = 1%nat.
Proof.
  destruct (X23_blank_submission Reference.engine 0 0 [9%N] Reference.fresh
              ltac:(discriminate) eq_refl eq_refl) as [Hshown Hconsole].
  split; [exact Hshown | rewrite Hconsole; reflexivity].
Defined.

(* ===================================================================== *)
(** ** The earlier variant *)
(* ===================================================================== *)

(** X24. The earlier variant validates nothing: when the text of the
    field converts to an integer n, in the range where the counter of the
    loop is exact and the markup fits a string (taken here up to
    n = 1000000), it writes exactly n lines, none for n <= 0 and more than
    20 when n is larger, the line of index k being the markup of
    [elements(k, n)], which ends with a br tag. *)
Theorem X24_legacy_lines (E : engine) (n : Z) :
  n <= 1000000 ->
  List.length (Legacy.submit E n) = Z.to_nat n /\
  (forall k, 1 <= k <= n ->
     nth_error (Legacy.submit E n) (Z.to_nat (k - 1)) = Some (Legacy.elements E k n)) /\
  Forall (fun line => exists body, line = body ++ lit "<br>") (Legacy.submit E n).
Proof.
  intros _. rewrite legacy_submit_lines. split; [|split].
  - now rewrite length_map, Zseq_length.
  - intros k Hk. rewrite nth_error_map, Zseq_nth by lia.
    cbn [option_map]. do 2 f_equal. lia.
  - apply Forall_forall. intros line Hin. apply in_map_iff in Hin.
    destruct Hin as (k & <- & _). unfold Legacy.elements.
    eexists. rewrite !app_assoc. reflexivity.
Qed.

(** The orders 21, which the current validator refuses, and 0. *)
Lemma X24_orders_21_and_0 :
  List.length (Legacy.submit Reference.engine 21) = 21%nat /\
  Legacy.submit Reference.engine 0 = [].
Proof.
  split.
  - apply (X24_legacy_lines Reference.engine 21). lia.
  - destruct (X24_legacy_lines Reference.engine 0 ltac:(lia)) as [Hlen _].
    destruct (Legacy.submit Reference.engine 0); [reflexivity | discriminate Hlen].
Defined.

(* ===================================================================== *)
(** ** The validator on text around the digits *)
(* ===================================================================== *)

Lemma trimStart_white_space (w x : jsstring) :
  forallb isStrWhiteSpaceChar w = true -> trimStart (w ++ x) = trimStart x.
Proof.
  induction w as [|c r IH]; [reflexivity|].
  cbn [forallb app trimStart]. intro H. apply Bool.andb_true_iff in H.
  destruct H as [Hc Hr]. rewrite Hc. exact (IH Hr).
Qed.

Lemma spanDigits_app (ds r : jsstring) :
  forallb isDecimalDigit ds = true -> spanDigits r = ([], r) ->
  spanDigits (ds ++ r) = (ds, r).
Proof.
  intros Hds Hr. induction ds as [|c t IH]; [exact Hr|].
  cbn [forallb] in Hds. apply Bool.andb_true_iff in Hds. destruct Hds as [Hc Ht].
  cbn [app spanDigits]. now rewrite Hc, (IH Ht).
Qed.

Lemma spanDigits_stops (c : code_unit) (r : jsstring) :
  isDecimalDigit c = false -> spanDigits (c :: r) = ([], c :: r).
Proof. intro H. cbn [spanDigits]. now rewrite H. Qed.

Lemma white_space_not_digit (c : code_unit) :
  isStrWhiteSpaceChar c = true -> isDecimalDigit c = false.
Proof.
  intro H. destruct (isDecimalDigit c) eqn:Hd; [|reflexivity].
  rewrite (digit_not_white_space c Hd) in H. discriminate H.
Qed.

Lemma spanDigits_white_space (w : jsstring) :
  forallb isStrWhiteSpaceChar w = true -> spanDigits w = ([], w).
Proof.
  destruct w as [|c r]; [reflexivity|].
  cbn [forallb]. intro H. apply Bool.andb_true_iff in H.
  apply spanDigits_stops, white_space_not_digit. tauto.
Qed.

Lemma includes_app (a b : jsstring) (c : code_unit) :
  includes (a ++ b) c = includes a c || includes b c.
Proof. unfold includes. apply existsb_app. Qed.

Lemma includes_cons (x : code_unit) (r : jsstring) (c : code_unit) :
  includes (x :: r) c = N.eqb c x || includes r c.
Proof. reflexivity. Qed.

(** The part shared by the properties below: digits [ds], white space [w]
    before them and a tail [r] that stops [parseInt] after them. *)
Lemma validateInput_digits_then (w ds r : jsstring) :
  forallb isStrWhiteSpaceChar w = true ->
  ds <> [] -> forallb isDecimalDigit ds = true ->
  spanDigits r = ([], r) ->
  includes r (cu ".") = false -> includes r (cu ",") = false ->
  isNaN (w ++ ds ++ r) = false ->
  validateInput (w ++ ds ++ r) =
    if (MIN_INPUT <=? digitsValue ds) && (digitsValue ds <=? MAX_INPUT)
    then accepted (Num (digitsValue ds))
    else rejected msg_out_of_range.
Proof.
  intros Hw Hne Hds Hr Hdot Hcomma Hnan.
  assert (Hparse : parseInt10 (w ++ ds ++ r) = Num (digitsValue ds)).
  { unfold parseInt10. rewrite (trimStart_white_space w _ Hw).
    destruct ds as [|c t]; [contradiction|].
    assert (Hc : isDecimalDigit c = true).
    { cbn [forallb] in Hds. now apply Bool.andb_true_iff in Hds. }
    destruct (digit_not_sign c Hc) as (Hplus & Hminus & _ & _).
    rewrite <- app_comm_cons, trimStart_first by (apply digit_not_white_space, Hc).
    rewrite Hplus, Hminus. cbv beta iota.
    rewrite app_comm_cons, (spanDigits_app (c :: t) r Hds Hr). cbv beta iota.
    f_equal. lia. }
  rewrite validateInput_numeric.
  - rewrite Hparse. unfold greaterThan, lessThan, MIN_INPUT, MAX_INPUT.
    cbv beta iota.
    destruct (Z.leb_spec 1 (digitsValue ds)), (Z.leb_spec (digitsValue ds) 20),
             (Z.ltb_spec (digitsValue ds) 1), (Z.ltb_spec 20 (digitsValue ds));
      cbn [andb orb]; try reflexivity; lia.
  - exact Hnan.
  - destruct w; [destruct ds; [contradiction | reflexivity] | reflexivity].
  - rewrite !includes_app, Hdot.
    rewrite (includes_white_space w _ Hw), (includes_digits ds _ Hds) by reflexivity.
    reflexivity.
  - rewrite !includes_app, Hcomma.
    rewrite (includes_white_space w _ Hw), (includes_digits ds _ Hds) by reflexivity.
    reflexivity.
Qed.

Lemma forallb_reversed (P : code_unit -> bool) (l : jsstring) :
  forallb P (rev l) = forallb P l.
Proof.
  induction l as [|c r IH]; [reflexivity|].
  cbn [rev forallb]. rewrite forallb_app, IH. cbn [forallb].
  rewrite Bool.andb_true_r. apply Bool.andb_comm.
Qed.

Lemma trim_padded (w ds w' : jsstring) :
  forallb isStrWhiteSpaceChar w = true -> forallb isStrWhiteSpaceChar w' = true ->
  ds <> [] -> forallb isDecimalDigit ds = true ->
  trim (w ++ ds ++ w') = ds.
Proof.
  intros Hw Hw' Hne Hds. unfold trim, trimEnd.
  rewrite (trimStart_white_space w _ Hw).
  destruct ds as [|c t] eqn:Eds; [contradiction|].
  assert (Hc : isDecimalDigit c = true).
  { cbn [forallb] in Hds. now apply Bool.andb_true_iff in Hds. }
  rewrite <- app_comm_cons, trimStart_first by (apply digit_not_white_space, Hc).
  rewrite app_comm_cons, rev_app_distr.
  rewrite trimStart_white_space by (rewrite forallb_reversed; exact Hw').
  rewrite (rev_last_first (c :: t)) by discriminate.
  rewrite trimStart_first
    by (apply digit_not_white_space, last_forallb; [discriminate | exact Hds]).
  rewrite <- (rev_last_first (c :: t)) by discriminate.
  apply rev_involutive.
Qed.

(** X25. White space before and after the digits is ignored: such a text
    is accepted exactly when the value of the digits lies between 1 and 20,
    with that value, like the digits alone. *)
Theorem X25_padded_digits (w ds w' : jsstring) :
  forallb isStrWhiteSpaceChar w = true -> forallb isStrWhiteSpaceChar w' = true ->
  ds <> [] -> forallb isDecimalDigit ds = true ->
  validateInput (w ++ ds ++ w') =
    if (MIN_INPUT <=? digitsValue ds) && (digitsValue ds <=? MAX_INPUT)
    then accepted (Num (digitsValue ds))
    else rejected msg_out_of_range.
Proof.
  intros Hw Hw' Hne Hds.
  apply validateInput_digits_then; try assumption.
  - apply spanDigits_white_space, Hw'.
  - apply includes_white_space; [exact Hw' | reflexivity].
  - apply includes_white_space; [exact Hw' | reflexivity].
  - destruct (digits_numeric ds Hne Hds) as [Hnan _].
    unfold isNaN, isStringNumericLiteral in *.
    rewrite (trim_padded w ds w' Hw Hw' Hne Hds).
    assert (Htrim : trim ds = ds).
    { pose proof (trim_padded [] ds [] eq_refl eq_refl Hne Hds) as H.
      now rewrite app_nil_r in H. }
    now rewrite Htrim in Hnan.
Qed.

(** " 12 " with a tab after it. *)
Lemma X25_space_12_tab :
  validateInput (lit " 12 " ++ [9%N]) = accepted (Num 12).
Proof.
  apply (X25_padded_digits (lit " ") (lit "12") (lit " " ++ [9%N]));
    (reflexivity || discriminate).
Defined.

Lemma last_append (pre es : jsstring) (d : code_unit) :
  es <> [] -> List.last (pre ++ es) d = List.last es d.
Proof.
  intro Hes. induction pre as [|a pre IH]; [reflexivity|].
  cbn [app]. destruct (pre ++ es) as [|b r] eqn:Hrest.
  - apply app_eq_nil in Hrest. destruct Hrest as [_ ->]. contradiction.
  - exact IH.
Qed.

(** X26. An exponent is not read: digits followed by [e] and more digits
    convert to a number, so the text passes the first rule, but parseInt
    stops at the [e]; the text is accepted when the digits before the [e]
    are worth 1 to 20, with that value (2e5 is accepted as 2), and is out of
    range otherwise. *)
Theorem X26_exponent_is_dropped (ds es : jsstring) :
  ds <> [] -> forallb isDecimalDigit ds = true ->
  es <> [] -> forallb isDecimalDigit es = true ->
  validateInput (ds ++ cu "e" :: es) =
    if (MIN_INPUT <=? digitsValue ds) && (digitsValue ds <=? MAX_INPUT)
    then accepted (Num (digitsValue ds))
    else rejected msg_out_of_range.
Proof.
  intros Hne Hds Hnes Hes.
  apply (validateInput_digits_then [] ds (cu "e" :: es) eq_refl Hne Hds).
  - apply spanDigits_stops. reflexivity.
  - now rewrite includes_cons, (includes_digits es (cu ".") Hes eq_refl).
  - now rewrite includes_cons, (includes_digits es (cu ",") Hes eq_refl).
  - cbn [app].
    assert (Hlast : isStrWhiteSpaceChar (List.last (ds ++ cu "e" :: es) 0%N) = false).
    { change (ds ++ cu "e" :: es) with (ds ++ [cu "e"] ++ es).
      rewrite app_assoc, (last_append (ds ++ [cu "e"]) es 0%N Hnes).
      apply digit_not_white_space, last_forallb; [exact Hnes | exact Hes]. }
    destruct ds as [|c t]; [contradiction|].
    assert (Hc : isDecimalDigit c = true).
    { cbn [forallb] in Hds. now apply Bool.andb_true_iff in Hds. }
    destruct (digit_not_sign c Hc) as (Hplus & Hminus & _ & _).
    assert (Htrim : trim ((c :: t) ++ cu "e" :: es) = (c :: t) ++ cu "e" :: es).
    { apply (trim_tight ((c :: t) ++ cu "e" :: es) c
               (List.last ((c :: t) ++ cu "e" :: es) 0%N) (t ++ cu "e" :: es)).
      - reflexivity.
      - apply rev_last_first. discriminate.
      - apply digit_not_white_space, Hc.
      - exact Hlast. }
    unfold isNaN, isStringNumericLiteral. rewrite Htrim.
    assert (Hlit : isStrDecimalLiteral ((c :: t) ++ cu "e" :: es) = true).
    { change (isStrDecimalLiteral ((c :: t) ++ cu "e" :: es))
        with (if (N.eqb c (cu "+") || N.eqb c (cu "-"))%bool
              then isStrUnsignedDecimalLiteral (t ++ cu "e" :: es)
              else isStrUnsignedDecimalLiteral ((c :: t) ++ cu "e" :: es)).
      rewrite Hplus, Hminus. cbn [orb].
      unfold isStrUnsignedDecimalLiteral.
      destruct (jsstring_eqb _ _); [reflexivity|].
      rewrite (spanDigits_app (c :: t) (cu "e" :: es) Hds
                 (spanDigits_stops (cu "e") es eq_refl)).
      cbv beta iota.
      change (N.eqb (cu "e") (cu ".")) with false. cbv beta iota.
      unfold isExponentPartOpt.
      change (N.eqb (cu "e") (cu "e") || N.eqb (cu "e") (cu "E")) with true.
      unfold isSignedInteger, isDecimalDigits.
      destruct es as [|x r]; [contradiction|].
      assert (Hx : isDecimalDigit x = true).
      { cbn [forallb] in Hes. now apply Bool.andb_true_iff in Hes. }
      destruct (digit_not_sign x Hx) as (Hxp & Hxm & _ & _).
      rewrite Hxp, Hxm, Hes. reflexivity. }
    rewrite Hlit. reflexivity.
Qed.

(** "2e5" is accepted as 2, and "25e1" is out of range. *)
Lemma X26_2e5 :
  validateInput (lit "2e5") = accepted (Num 2) /\
  validateInput (lit "25e1") = rejected msg_out_of_range.
Proof.
  split.
  - apply (X26_exponent_is_dropped (lit "2") (lit "5")); (reflexivity || discriminate).
  - apply (X26_exponent_is_dropped (lit "25") (lit "1")); (reflexivity || discriminate).
Defined.
